(** * transcribe.py: shallow embedding and verified properties

    The script is an interactive orchestrator around three external
    collaborators (yt-dlp, ffmpeg and the tafrigh pipeline).  It is embedded
    as a state-and-exception monad that also emits a trace of observable
    events; the external tools are the variables of a section. *)

From Stdlib Require Import ZArith Ascii String List Lia Permutation.
From Stdlib.Strings Require Import Byte.
From stdpp Require Import base decidable option list gmap strings fin_maps.

Open Scope string_scope.
Open Scope Z_scope.
Open Scope list_scope.

(** ** Strings

    Python [str] values are modelled as byte strings.  [upper], [lower] and
    [strip] act on the ASCII range; every comparison the script makes after a
    case mapping is against an ASCII literal. *)

Module Str.

Definition upper_char (c : ascii) : ascii :=
  let n := N_of_ascii c in
  if ((97 <=? n) && (n <=? 122))%N then ascii_of_N (n - 32) else c.

Definition lower_char (c : ascii) : ascii :=
  let n := N_of_ascii c in
  if ((65 <=? n) && (n <=? 90))%N then ascii_of_N (n + 32) else c.

Fixpoint upper (s : string) : string :=
  match s with
  | EmptyString => EmptyString
  | String c s' => String (upper_char c) (upper s')
  end.

Fixpoint lower (s : string) : string :=
  match s with
  | EmptyString => EmptyString
  | String c s' => String (lower_char c) (lower s')
  end.

(** [str.isspace] on the ASCII range: TAB, LF, VT, FF, CR, FS..US, SPACE. *)
Definition isspace (c : ascii) : bool :=
  let n := N_of_ascii c in
  (((9 <=? n) && (n <=? 13)) || ((28 <=? n) && (n <=? 32)))%N.

Fixpoint lstrip (s : string) : string :=
  match s with
  | EmptyString => EmptyString
  | String c s' => if isspace c then lstrip s' else s
  end.

Fixpoint rstrip (s : string) : string :=
  match s with
  | EmptyString => EmptyString
  | String c s' =>
      match rstrip s' with
      | EmptyString => if isspace c then EmptyString else String c EmptyString
      | t => String c t
      end
  end.

Definition strip (s : string) : string := rstrip (lstrip s).

(** [s.rfind(c)]: the index of the last occurrence, [None] for Python's -1. *)
Fixpoint rfind_from (c : ascii) (s : string) (i : nat) (acc : option nat)
  : option nat :=
  match s with
  | EmptyString => acc
  | String a s' =>
      rfind_from c s' (S i) (if Ascii.eqb a c then Some i else acc)
  end.

Definition rfind (c : ascii) (s : string) : option nat :=
  rfind_from c s 0%nat None.

(** [s.endswith(t)] *)
Definition endswith (s t : string) : bool :=
  let n := String.length s in
  let m := String.length t in
  (m <=? n)%nat && String.eqb (substring (n - m) m s) t.

(** [s.split(sep)] for a one-character separator. *)
Fixpoint split_go (sep : ascii) (cur : string) (s : string) : list string :=
  match s with
  | EmptyString => [String.rev cur]
  | String c s' =>
      if Ascii.eqb c sep then String.rev cur :: split_go sep EmptyString s'
      else split_go sep (String c cur) s'
  end.

Definition split (sep : ascii) (s : string) : list string :=
  split_go sep EmptyString s.


End Str.

(** ** pathlib.PurePosixPath *)

Record Path := mkPath { anchored : bool; parts : list string }.

#[global] Instance Path_eq_dec : EqDecision Path.
Proof. solve_decision. Defined.

Module PathOps.

(** [Path(s)]: split on the separator, drop empty and "." components (a
    leading double slash is read as a single one). *)
Definition of_string (s : string) : Path :=
  mkPath (String.prefix "/" s)
         (filter (λ c, c ≠ "" ∧ c ≠ ".") (Str.split "/" s)).

(** [str(p)] *)
Definition str (p : Path) : string :=
  match anchored p, parts p with
  | false, [] => "."
  | a, ps => (if a then "/" else "") +:+ String.concat "/" ps
  end.

(** [p / name] for a single component. *)
Definition joinpath (p : Path) (name : string) : Path :=
  mkPath (anchored p) (parts p ++ [name]).

(** [p.parent] *)
Definition parent (p : Path) : Path :=
  mkPath (anchored p) (removelast (parts p)).

(** [p.name] *)
Definition name (p : Path) : string := List.last (parts p) "".

(** [p.suffix]:
<<
    name = self.name
    i = name.rfind('.')
    if 0 < i < len(name) - 1: return name[i:]
    else: return ''
>> *)
Definition suffix (p : Path) : string :=
  let n := name p in
  match Str.rfind "." n with
  | Some i =>
      if ((0 <? i) && (i <? String.length n - 1))%nat
      then substring i (String.length n - i) n
      else ""
  | None => ""
  end.

(** [p.with_suffix(sfx)] for a well-formed [sfx] (the script only passes
    the literal '.wav'); an empty name raises ValueError, rendered here as
    [None]. *)
Definition with_suffix (p : Path) (sfx : string) : option Path :=
  let n := name p in
  if String.eqb n "" then None
  else
    let old := suffix p in
    let n' :=
      if String.eqb old "" then n +:+ sfx
      else substring 0 (String.length n - String.length old) n +:+ sfx in
    Some (mkPath (anchored p) (removelast (parts p) ++ [n'])).

End PathOps.

(** ** Exceptions, events and the pipeline configuration *)

(** Operating-system error numbers behind [OSError] and its subclasses
    (FileNotFoundError, PermissionError, IsADirectoryError, ...). *)
Inductive errno := ENOENT | EACCES | EISDIR | ENOTDIR | EIO.

(** The exception classes the script can meet.  [OSError] stands for the
    class and its subclasses ([IOError] is an alias of it); [OtherException]
    is any further class derived from [Exception]; [SystemExit] and
    [KeyboardInterrupt] derive from [BaseException] only. *)
Inductive exn :=
| CalledProcessError (cmd : list string) (returncode : Z)
| OSError (e : errno)
| ValueError (msg : string)
| StopIteration
| EOFError
| OtherException (cls msg : string)
| SystemExit (code : Z)
| KeyboardInterrupt.

Definition isinstance_Exception (e : exn) : bool :=
  match e with
  | SystemExit _ | KeyboardInterrupt => false
  | _ => true
  end.

Definition isinstance_IOError (e : exn) : bool :=
  match e with
  | OSError _ => true
  | _ => false
  end.

Definition isinstance_CalledProcessError (e : exn) : bool :=
  match e with
  | CalledProcessError _ _ => true
  | _ => false
  end.

(** tafrigh's [TranscriptType]. *)
Inductive TranscriptType := ALL | TXT | SRT | VTT | CSV | TSV | JSON | NONE.

Module Config.

Record Input := mkInput {
  urls_or_paths : list string;
  skip_if_output_exist : bool;
  playlist_items : string;
  download_retries : Z;
  verbose : bool }.

Record Whisper := mkWhisper {
  model_name_or_path : string;
  task : string;
  language : string;
  use_faster_whisper : bool;
  beam_size : Z;
  ct2_compute_type : string }.

Record Wit := mkWit {
  wit_client_access_tokens : list string;
  max_cutting_duration : Z }.

Record Output := mkOutput {
  min_words_per_segment : Z;
  save_files_before_compact : bool;
  save_yt_dlp_responses : bool;
  output_sample : Z;
  output_formats : list TranscriptType;
  output_dir : string }.

Record t := mk {
  input : Input;
  whisper : Whisper;
  wit : Wit;
  output : Output }.

End Config.

(** How a child process started by [subprocess.run] ended: with an exit
    status, or not at all (the executable could not be started). *)
Inductive proc_outcome :=
| Exited (status : Z)
| NotStarted (e : errno).

(** Observable events, in program order.  [ELogError prefix e] is the record
    [logging.error(f"{prefix}{e}")] appended to transcription.log;
    [EDispatch] marks entry into [transcribe_file] and has no output. *)
Inductive event :=
| EPrint (s : string)
| EPrompt (s : string)
| ELogError (prefix : string) (e : exn)
| ERun (cmd : list string) (o : proc_outcome)
| EDispatch (file_path : Path) (language_sign : string)
| EFarrigh (cfg : Config.t) (raised : option exn).

(** ** The file system and the world

    The file system is what the three system calls the script makes would
    answer: opening and reading a file, testing for a directory, and listing
    a directory (in enumeration order; empty when it cannot be listed). *)
Record FS := mkFS {
  fs_open_read : Path → errno + list byte;
  fs_is_dir : Path → bool;
  fs_scandir : Path → list string }.

Record World := mkWorld { fs : FS; stdin : list string }.

(** The external collaborators and the process environment. *)
Record Externals := mkExternals {
  (** [subprocess.run(cmd)]: outcome and effect on the file system *)
  run_process : list string → FS → proc_outcome * FS;
  (** draining [farrigh(config)]: the exception that ended it, if any, and
      its effect on the file system *)
  farrigh : Config.t → FS → option exn * FS;
  (** [Path(__file__).parent] *)
  script_dir : Path;
  (** [os.environ] after [load_dotenv()] *)
  environ : gmap string string }.

(** ** The monad: state, exceptions and an event trace *)

Inductive result (A : Type) :=
| Ret (a : A)
| Raise (e : exn).
Arguments Ret {A} a.
Arguments Raise {A} e.

Definition M (A : Type) : Type := World → result A * World * list event.

#[global] Instance M_ret : MRet M := λ A a w, (Ret a, w, []).

#[global] Instance M_bind : MBind M := λ A B k m w,
  match m w with
  | (Ret a, w1, t1) => let '(r, w2, t2) := k a w1 in (r, w2, t1 ++ t2)
  | (Raise e, w1, t1) => (Raise e, w1, t1)
  end.

Definition raise {A} (e : exn) : M A := λ w, (Raise e, w, []).

Definition emit (ev : event) : M unit := λ w, (Ret tt, w, [ev]).

(** [try: m  except <classes>: h] *)
Definition try_except {A} (m : M A) (catches : exn → bool) (h : exn → M A)
  : M A := λ w,
  match m w with
  | (Raise e, w1, t1) =>
      if catches e
      then let '(r, w2, t2) := h e w1 in (r, w2, t1 ++ t2)
      else (Raise e, w1, t1)
  | done => done
  end.

(** [for x in xs: body(x)] *)
Fixpoint for_each {A} (xs : list A) (body : A → M unit) : M unit :=
  match xs with
  | [] => mret tt
  | x :: xs' => body x ;; for_each xs' body
  end.

Definition print (s : string) : M unit := emit (EPrint s).

Definition logging_error (prefix : string) (e : exn) : M unit :=
  emit (ELogError prefix e).

Definition sys_exit {A} (code : Z) : M A := raise (SystemExit code).

(** [input(prompt)]: shows the prompt, reads one line; EOFError at end of
    input. *)
Definition input (prompt : string) : M string := λ w,
  match stdin w with
  | [] => (Raise EOFError, w, [EPrompt prompt])
  | line :: rest => (Ret line, mkWorld (fs w) rest, [EPrompt prompt])
  end.

(** [subprocess.run(command, check=True)] *)
Definition subprocess_run_check (X : Externals) (command : list string)
  : M unit := λ w,
  let '(o, fs') := run_process X command (fs w) in
  let w' := mkWorld fs' (stdin w) in
  match o with
  | Exited 0 => (Ret tt, w', [ERun command o])
  | Exited n => (Raise (CalledProcessError command n), w', [ERun command o])
  | NotStarted e => (Raise (OSError e), w', [ERun command o])
  end.

(** [open(p, 'rb')] followed by [read(4)] *)
Definition open_read4 (p : Path) : M (list byte) := λ w,
  match fs_open_read (fs w) p with
  | inr data => (Ret (firstn 4 data), w, [])
  | inl e => (Raise (OSError e), w, [])
  end.

Definition is_dir (p : Path) : M bool := λ w, (Ret (fs_is_dir (fs w) p), w, []).

(** [p.glob('*')]: the immediate entries of [p]. *)
Definition glob_star (p : Path) : M (list Path) := λ w,
  (Ret (PathOps.joinpath p <$> fs_scandir (fs w) p), w, []).

(** [next(p.glob(d + '/*.wav'))] for a literal directory name [d]. *)
Definition next_glob_wav (p : Path) (d : string) : M Path := λ w,
  let dir := PathOps.joinpath p d in
  let names :=
    if fs_is_dir (fs w) dir
    then filter (λ n, Str.endswith n ".wav" = true) (fs_scandir (fs w) dir)
    else [] in
  match names with
  | n :: _ => (Ret (PathOps.joinpath dir n), w, [])
  | [] => (Raise StopIteration, w, [])
  end.

(** [p.with_suffix('.wav')] *)
Definition with_suffix_wav (p : Path) : M Path :=
  match PathOps.with_suffix p ".wav" with
  | Some q => mret q
  | None => raise (ValueError "empty name")
  end.

#[global] Instance byte_eq_decision : EqDecision byte := Byte.byte_eq_dec.

(** b'RIFF' *)
Definition RIFF : list byte := [x52; x49; x46; x46].

(** How the interpreter ends the process for a given result of the script. *)
Inductive termination :=
| ExitStatus (code : Z)
| Traceback (e : exn).

Definition process_exit (r : result unit) : termination :=
  match r with
  | Ret _ => ExitStatus 0
  | Raise (SystemExit code) => ExitStatus code
  | Raise e => Traceback e
  end.

(** Python truthiness of an optional string: [None] and [''] are false. *)
Definition truthy (v : option string) : bool :=
  match v with
  | Some s => negb (String.eqb s "")
  | None => false
  end.

(** [d.get(k)] on a dict whose values may be [None]. *)
Definition dict_get (d : gmap string (option string)) (k : string)
  : option string := default None (d !! k).

(** [any(d.values())] *)
Definition any_values (d : gmap string (option string)) : bool :=
  bool_decide (map_Exists (λ _ v, truthy v = true) d).

(** ** The script *)

Section Script.

Variable X : Externals.

(** [os.getenv(k)] *)
Definition getenv (k : string) : option string := environ X !! k.

Definition LANGUAGE_API_KEYS : gmap string (option string) :=
  {[ "EN" := getenv "WIT_API_KEY_ENGLISH";
     "AR" := getenv "WIT_API_KEY_ARABIC";
     "FR" := getenv "WIT_API_KEY_FRENCH";
     "JA" := getenv "WIT_API_KEY_JAPANESE" ]}.

(** The body the three [except subprocess.CalledProcessError as e] handlers
    share: [logging.error(f"{prefix}{e}")], [print(message)],
    [sys.exit(1)]. *)
Definition fatal {A} (prefix message : string) (e : exn) : M A :=
  logging_error prefix e ;;
  print message ;;
  sys_exit 1.

Definition yt_dlp_command (youtube_url : string) : list string :=
  let output_path :=
    PathOps.joinpath (PathOps.joinpath (script_dir X) "downloads")
                     "%(id)s.%(ext)s" in
  ["yt-dlp"; "-x"; "--audio-format"; "wav"; "-o";
   PathOps.str output_path; youtube_url].

Definition download_youtube_audio (youtube_url : string) : M Path :=
  let command := yt_dlp_command youtube_url in
  try_except
    (subprocess_run_check X command ;;
     audio_file ← next_glob_wav (script_dir X) "downloads";
     mret audio_file)
    isinstance_CalledProcessError
    (fatal "Error downloading YouTube audio: "
           "Error downloading YouTube audio. Check the logs for more information.").

Definition video_command (video_path audio_output_path : Path)
  : list string :=
  ["ffmpeg"; "-i"; PathOps.str video_path; "-vn"; "-acodec"; "pcm_s16le";
   "-ar"; "44100"; "-ac"; "2"; PathOps.str audio_output_path].

Definition convert_video_to_audio (video_path : Path) : M Path :=
  audio_output_path ← with_suffix_wav video_path;
  let command := video_command video_path audio_output_path in
  try_except
    (subprocess_run_check X command ;;
     print ("Video converted to audio: " +:+ PathOps.str audio_output_path) ;;
     mret audio_output_path)
    isinstance_CalledProcessError
    (fatal "Error converting video to audio: "
           "Error converting video to audio. Check the logs for more information.").

Definition mp3_command (mp3_path wav_output_path : Path) : list string :=
  ["ffmpeg"; "-i"; PathOps.str mp3_path; PathOps.str wav_output_path].

Definition convert_mp3_to_wav (mp3_path : Path) : M Path :=
  wav_output_path ← with_suffix_wav mp3_path;
  let command := mp3_command mp3_path wav_output_path in
  try_except
    (subprocess_run_check X command ;;
     print ("MP3 converted to WAV: " +:+ PathOps.str wav_output_path) ;;
     mret wav_output_path)
    isinstance_CalledProcessError
    (fatal "Error converting MP3 to WAV: "
           "Error converting MP3 to WAV. Check the logs for more information.").

Definition is_wav_file (file_path : Path) : M bool :=
  try_except
    (data ← open_read4 file_path;
     mret (bool_decide (data = RIFF)))
    isinstance_IOError
    (λ _, mret false).

(** The bundle built inside the [try] of [transcribe_file]. *)
Definition make_config (file_path : Path) (language_sign wit_api_key : string)
  : Config.t :=
  let input_config :=
    Config.mkInput [PathOps.str file_path] false "" 3 false in
  let whisper_config :=
    Config.mkWhisper "path/to/your/model" "transcribe" language_sign
                     false 0 "" in
  let wit_config := Config.mkWit [wit_api_key] 5 in
  let output_config :=
    Config.mkOutput 1 false false 0 [TXT; SRT]
                    (PathOps.str (PathOps.parent file_path)) in
  Config.mk input_config whisper_config wit_config output_config.

(** [deque(farrigh(config), maxlen=0)]: drain the pipeline. *)
Definition drain_farrigh (config : Config.t) : M unit := λ w,
  let '(o, fs') := farrigh X config (fs w) in
  let w' := mkWorld fs' (stdin w) in
  match o with
  | None => (Ret tt, w', [EFarrigh config None])
  | Some e => (Raise e, w', [EFarrigh config (Some e)])
  end.

Definition transcribe_file (file_path : Path) (language_sign : string)
  : M unit :=
  emit (EDispatch file_path language_sign) ;;
  wav ← is_wav_file file_path;
  if negb wav then
    print ("Skipping file " +:+ PathOps.str file_path
           +:+ " as it is not in WAV format.")
  else
    let wit_api_key := dict_get LANGUAGE_API_KEYS (Str.upper language_sign) in
    if negb (truthy wit_api_key) then
      print ("API key not found for language: " +:+ language_sign)
    else
      try_except
        (let config :=
           make_config file_path language_sign (default "" wit_api_key) in
         print ("Transcribing file: " +:+ PathOps.str file_path) ;;
         drain_farrigh config ;;
         print "Transcription completed. Check the output directory for the generated files.")
        isinstance_Exception
        (λ e,
           logging_error "Error during transcription: " e ;;
           print "Error during transcription. Check the logs for more information.").

Definition suffix_lower (p : Path) : string := Str.lower (PathOps.suffix p).

Definition is_video_suffix (s : string) : bool :=
  bool_decide (s ∈ [".mp4"; ".mkv"; ".avi"]).

Definition language_prompt_for (file : Path) : string :=
  "Enter the language sign for " +:+ PathOps.name file
  +:+ " (e.g., EN, AR, FR, JA): ".

(** Body of the loop over a directory (lines 147-157). *)
Definition local_dir_entry (file : Path) : M unit :=
  if String.eqb (suffix_lower file) ".wav" then
    language_sign ← input (language_prompt_for file);
    transcribe_file file language_sign
  else if String.eqb (suffix_lower file) ".mp3" then
    wav_file ← convert_mp3_to_wav file;
    language_sign ← input (language_prompt_for file);
    transcribe_file wav_file language_sign
  else if is_video_suffix (suffix_lower file) then
    audio_file ← convert_video_to_audio file;
    language_sign ← input (language_prompt_for file);
    transcribe_file audio_file language_sign
  else mret tt.

(** Directory branch of Local mode (lines 146-157). *)
Definition local_directory (file_path : Path) : M unit :=
  files ← glob_star file_path;
  for_each files local_dir_entry.

(** Single-file branch of Local mode (lines 159-164). *)
Definition local_single_file (file_path : Path) : M unit :=
  file_path ←
    (if String.eqb (suffix_lower file_path) ".mp3" then
       convert_mp3_to_wav file_path
     else if is_video_suffix (suffix_lower file_path) then
       convert_video_to_audio file_path
     else mret file_path);
  language_sign ← input "Enter the language sign (e.g., EN, AR, FR): ";
  transcribe_file file_path language_sign.

(** Local mode (lines 141-164). *)
Definition local_mode : M unit :=
  file_path ← input "Enter the path to the local file or directory: ";
  let file_path := PathOps.of_string file_path in
  d ← is_dir file_path;
  if (d : bool) then local_directory file_path else local_single_file file_path.

(** Remote mode (lines 136-139). *)
Definition remote_mode : M unit :=
  youtube_url ← input "Enter the YouTube video link: ";
  language_sign ← input "Enter the language sign (e.g., EN, AR, FR, JA): ";
  audio_file ← download_youtube_audio youtube_url;
  transcribe_file audio_file language_sign.

Definition main : M unit :=
  choice ← input "Do you want to transcribe a YouTube video (Y) or a local file (L)? [Y/L]: ";
  let choice := Str.upper (Str.strip choice) in
  if String.eqb choice "Y" then remote_mode
  else if String.eqb choice "L" then local_mode
  else
    print "Invalid choice. Exiting." ;;
    sys_exit 1.

(** The module body, run as a script: the credential check at import time,
    then [main()].  [logging.basicConfig] between the two only selects the
    log file and emits no event. *)
Definition script : M unit :=
  if negb (any_values LANGUAGE_API_KEYS) then
    print "Error: At least one Wit.ai API key must be provided in the .env file." ;;
    sys_exit 1
  else main.

End Script.

(** ** Vocabulary used to state the properties *)

(** What the format probe answers, read off the file system. *)
Definition probe (f : FS) (p : Path) : bool :=
  match fs_open_read f p with
  | inr data => bool_decide (firstn 4 data = RIFF)
  | inl _ => false
  end.

Definition skip_message (file_path : Path) : string :=
  "Skipping file " +:+ PathOps.str file_path +:+ " as it is not in WAV format.".

Definition not_found_message (language_sign : string) : string :=
  "API key not found for language: " +:+ language_sign.

Definition transcribing_message (file_path : Path) : string :=
  "Transcribing file: " +:+ PathOps.str file_path.

Definition completed_message : string :=
  "Transcription completed. Check the output directory for the generated files.".

Definition failed_message : string :=
  "Error during transcription. Check the logs for more information.".

Definition mp3_error_message : string :=
  "Error converting MP3 to WAV. Check the logs for more information.".

Definition video_error_message : string :=
  "Error converting video to audio. Check the logs for more information.".

Definition download_error_message : string :=
  "Error downloading YouTube audio. Check the logs for more information.".

Definition missing_keys_message : string :=
  "Error: At least one Wit.ai API key must be provided in the .env file.".

Definition mode_prompt : string :=
  "Do you want to transcribe a YouTube video (Y) or a local file (L)? [Y/L]: ".

Definition path_prompt : string :=
  "Enter the path to the local file or directory: ".


Definition url_prompt : string := "Enter the YouTube video link: ".

Definition remote_language_prompt : string :=
  "Enter the language sign (e.g., EN, AR, FR, JA): ".

(** Classes of events. *)
Definition is_farrigh (ev : event) : bool :=
  match ev with EFarrigh _ _ => true | _ => false end.

Definition is_run (ev : event) : bool :=
  match ev with ERun _ _ => true | _ => false end.

Definition is_log (ev : event) : bool :=
  match ev with ELogError _ _ => true | _ => false end.

Definition is_print (ev : event) : bool :=
  match ev with EPrint _ => true | _ => false end.

Definition is_prompt (ev : event) : bool :=
  match ev with EPrompt _ => true | _ => false end.

Definition is_dispatch (ev : event) : bool :=
  match ev with EDispatch _ _ => true | _ => false end.

(** A child process that ended with a non-zero status. *)
Definition failed_run (ev : event) : bool :=
  match ev with
  | ERun _ (Exited n) => negb (n =? 0)
  | _ => false
  end.

(** The recognized language codes and the variable that configures each. *)
Definition recognized : list (string * string) :=
  [("EN", "WIT_API_KEY_ENGLISH"); ("AR", "WIT_API_KEY_ARABIC");
   ("FR", "WIT_API_KEY_FRENCH"); ("JA", "WIT_API_KEY_JAPANESE")].

(** The sibling WAV path of a media file. *)
Definition wav_of (p : Path) : Path :=
  default p (PathOps.with_suffix p ".wav").

(** What the orchestrator does with a file, abstracting from prompts and
    messages: conversions (by their command line) and dispatches. *)
Inductive action :=
| AConvert (cmd : list string)
| ADispatch (file_path : Path).

Definition action_of (ev : event) : option action :=
  match ev with
  | ERun cmd _ => Some (AConvert cmd)
  | EDispatch p _ => Some (ADispatch p)
  | _ => None
  end.

Definition actions (t : list event) : list action := omap action_of t.

Definition is_convert (a : action) : bool :=
  match a with AConvert _ => true | _ => false end.



(** The WAV files the downloader's glob sees in [downloads]. *)
Definition downloaded_wavs (X : Externals) (f : FS) : list string :=
  if fs_is_dir f (PathOps.joinpath (script_dir X) "downloads")
  then filter (λ n, Str.endswith n ".wav" = true)
              (fs_scandir f (PathOps.joinpath (script_dir X) "downloads"))
  else [].

(** Every event a computation emits satisfies [P]. *)
Definition emits_only {A} (P : event → Prop) (m : M A) : Prop :=
  ∀ w r w' t, m w = (r, w', t) → Forall P t.

(** A trace without a failed child process. *)
Definition clean (t : list event) : Prop :=
  Forall (λ ev, failed_run ev = false) t.

(** A trace that ends with a failed child process, the log record of the
    failure and a message, and holds no other failed child process. *)
Definition fatal_tail (t : list event) : Prop :=
  ∃ pre cmd n prefix message,
    n ≠ 0
    ∧ t = pre ++ [ERun cmd (Exited n);
                  ELogError prefix (CalledProcessError cmd n);
                  EPrint message]
    ∧ clean pre.

(** A computation in which a failed child process is always fatal. *)
Definition fatal_safe {A} (m : M A) : Prop :=
  ∀ w r w' t, m w = (r, w', t) →
    clean t ∨ (r = Raise (SystemExit 1) ∧ fatal_tail t).

(** A computation that returns normally whenever the pipeline raised an
    instance of [Exception] in it. *)
Definition pipe_safe (m : M unit) : Prop :=
  ∀ w r w' t, m w = (r, w', t) →
    ∀ cfg e, EFarrigh cfg (Some e) ∈ t → isinstance_Exception e = true →
             r = Ret tt.


(** ** Vocabulary for the further properties *)


(** The run of [m] with one event put in front of its trace. *)
Definition after_event {A} (ev : event) (run : result A * World * list event)
  : result A * World * list event :=
  let '(r, w', t) := run in (r, w', ev :: t).

(** The exception an event lets escape, if any: a child process that could
    not be started raises [OSError] out of [subprocess.run], and a pipeline
    exception outside [Exception] passes the handler of [transcribe_file]. *)
Definition abort_exn (ev : event) : option exn :=
  match ev with
  | ERun _ (NotStarted en) => Some (OSError en)
  | EFarrigh _ (Some e) => if isinstance_Exception e then None else Some e
  | _ => None
  end.

(** A trace with no aborting event. *)
Definition calm (t : list event) : Prop :=
  Forall (λ ev, abort_exn ev = None) t.

(** A computation in which an aborting event is always the last event, and
    its exception the result. *)
Definition aborting {A} (m : M A) : Prop :=
  ∀ w r w' t, m w = (r, w', t) →
    calm t
    ∨ ∃ pre ev e,
        t = pre ++ [ev] ∧ calm pre ∧ abort_exn ev = Some e ∧ r = Raise e.




(** A request to the pipeline that carries a configured credential: the
    bundle of [transcribe_file] for some file and language sign, whose token
    is the non-empty value of the variable of the recognized code that the
    language sign spells. *)
Definition credentialed (X : Externals) (cfg : Config.t) : Prop :=
  ∃ file_path language_sign key code var,
    cfg = make_config file_path language_sign key
    ∧ key ≠ ""
    ∧ (code, var) ∈ recognized
    ∧ Str.upper language_sign = code
    ∧ getenv X var = Some key.

(** Every pipeline event of a trace satisfies [P]. *)
Definition requests (P : Config.t → Prop) (ev : event) : Prop :=
  match ev with
  | EFarrigh cfg _ => P cfg
  | _ => True
  end.

(** A request made from directory [d]: one input file, named *.wav (in any
    case) and lying in [d], with [d] as output directory. *)
Definition stays_in (d : Path) (cfg : Config.t) : Prop :=
  ∃ q,
    Config.urls_or_paths (Config.input cfg) = [PathOps.str q]
    ∧ PathOps.parent q = d
    ∧ suffix_lower q = ".wav"
    ∧ Config.output_dir (Config.output cfg) = PathOps.str d.

(** The exception an event gets logged with, if any: a child process that
    exited with a non-zero status, a pipeline exception that is an instance
    of [Exception]. *)
Definition log_cause_of (ev : event) : option exn :=
  match ev with
  | ERun cmd (Exited n) =>
      if n =? 0 then None else Some (CalledProcessError cmd n)
  | EFarrigh _ (Some e) => if isinstance_Exception e then Some e else None
  | _ => None
  end.

(** Traces in which the log records are exactly the failures: an event
    with a cause is followed at once by its log record and a message, and
    log records occur nowhere else. *)
Inductive logged : list event → Prop :=
| logged_nil : logged []
| logged_quiet ev t :
    is_log ev = false → log_cause_of ev = None → logged t → logged (ev :: t)
| logged_record ev prefix e message t :
    log_cause_of ev = Some e → logged t →
    logged (ev :: ELogError prefix e :: EPrint message :: t).

(** A computation whose traces are of that kind. *)
Definition keeps_log {A} (m : M A) : Prop :=
  ∀ w r w' t, m w = (r, w', t) → logged t.

(** ** Concrete worlds used to run the script *)

Module Scenario.

(** Writing [data] at [p]: the file becomes readable and is listed in its
    parent directory. *)
Definition fs_write (f : FS) (p : Path) (data : list byte) : FS :=
  mkFS (λ q, if decide (q = p) then inr data else fs_open_read f q)
       (fs_is_dir f)
       (λ d, if decide (d = PathOps.parent p)
             then if decide (PathOps.name p ∈ fs_scandir f d)
                  then fs_scandir f d
                  else fs_scandir f d ++ [PathOps.name p]
             else fs_scandir f d).

Definition empty_fs : FS :=
  mkFS (λ _, inl ENOENT) (λ _, false) (λ _, []).

Definition mkdir (f : FS) (d : Path) : FS :=
  mkFS (λ q, if decide (q = d) then inl EISDIR else fs_open_read f q)
       (λ q, if decide (q = d) then true else fs_is_dir f q)
       (fs_scandir f).

Definition wav_bytes : list byte := RIFF ++ [x24; x00; x00; x00].
Definition mp3_bytes : list byte := [x49; x44; x33; x04].
Definition mkv_bytes : list byte := [x1a; x45; xdf; xa3].

Definition media : Path := mkPath true ["media"].

(** /media holding a.wav, b.mp3 and c.mkv, listed in that order. *)
Definition media_fs : FS :=
  fs_write
    (fs_write
       (fs_write (mkdir empty_fs media) (PathOps.joinpath media "a.wav")
                 wav_bytes)
       (PathOps.joinpath media "b.mp3") mp3_bytes)
    (PathOps.joinpath media "c.mkv") mkv_bytes.

(** A transcoder that succeeds: it writes a WAV file at its last argument. *)
Definition ffmpeg_ok (cmd : list string) (f : FS) : proc_outcome * FS :=
  (Exited 0, fs_write f (PathOps.of_string (List.last cmd "")) wav_bytes).

(** A tool that fails with exit status 1 and writes nothing. *)
Definition tool_fails (cmd : list string) (f : FS) : proc_outcome * FS :=
  (Exited 1, f).

(** A downloader that exits with status 0 and writes nothing. *)
Definition tool_idle (cmd : list string) (f : FS) : proc_outcome * FS :=
  (Exited 0, f).

(** A pipeline that completes and writes the transcript next to the input. *)
Definition farrigh_ok (cfg : Config.t) (f : FS) : option exn * FS :=
  (None,
   fs_write f
     (PathOps.joinpath
        (PathOps.of_string (Config.output_dir (Config.output cfg)))
        "transcript.txt")
     []).

(** A pipeline that raises a RuntimeError. *)
Definition farrigh_raises (cfg : Config.t) (f : FS) : option exn * FS :=
  (Some (OtherException "RuntimeError" "wit.ai request failed"), f).

Definition app_dir : Path := mkPath true ["opt"; "transcribe"].

Definition env_english : gmap string string :=
  {[ "WIT_API_KEY_ENGLISH" := "tok-en" ]}.

Definition env_none : gmap string string :=
  {[ "HOME" := "/root"; "WIT_API_KEY_FRENCH" := "" ]}.

Definition X_ok : Externals :=
  mkExternals ffmpeg_ok farrigh_ok app_dir env_english.

Definition X_pipeline_raises : Externals :=
  mkExternals ffmpeg_ok farrigh_raises app_dir env_english.

Definition X_tool_fails : Externals :=
  mkExternals tool_fails farrigh_ok app_dir env_english.

Definition X_download_idle : Externals :=
  mkExternals tool_idle farrigh_ok app_dir env_english.

Definition X_no_credentials : Externals :=
  mkExternals ffmpeg_ok farrigh_ok app_dir env_none.


Definition a_wav : Path := PathOps.joinpath media "a.wav".
Definition b_mp3 : Path := PathOps.joinpath media "b.mp3".

(** Nothing left to read on standard input. *)
Definition w_media : World := mkWorld media_fs [].

(** Local mode was chosen; the operator names /media and answers three
    language prompts. *)
Definition w_directory : World := mkWorld media_fs ["/media"; "en"; "EN"; "fr"].

(** The whole session for a single MP3 file. *)
Definition w_single_mp3 : World := mkWorld media_fs ["L"; "/media/b.mp3"; "en"].

(** Remote mode was chosen; a link and a language follow. *)
Definition w_remote : World :=
  mkWorld media_fs ["https://youtu.be/abc"; "en"].



(** A tool that cannot be started: the executable is not installed. *)
Definition tool_missing (cmd : list string) (f : FS) : proc_outcome * FS :=
  (NotStarted ENOENT, f).

(** A pipeline interrupted from the keyboard. *)
Definition farrigh_interrupted (cfg : Config.t) (f : FS) : option exn * FS :=
  (Some KeyboardInterrupt, f).

Definition downloads : Path := PathOps.joinpath app_dir "downloads".

(** The downloads directory as an earlier run left it: notes.txt and
    old.wav, listed in that order. *)
Definition downloads_fs : FS :=
  fs_write
    (fs_write (mkdir empty_fs downloads) (PathOps.joinpath downloads "notes.txt")
              [])
    (PathOps.joinpath downloads "old.wav") wav_bytes.

(** A downloader that succeeds and writes new.wav into downloads. *)
Definition yt_dlp_ok (cmd : list string) (f : FS) : proc_outcome * FS :=
  (Exited 0, fs_write f (PathOps.joinpath downloads "new.wav") wav_bytes).

Definition X_not_installed : Externals :=
  mkExternals tool_missing farrigh_ok app_dir env_english.

Definition X_interrupted : Externals :=
  mkExternals ffmpeg_ok farrigh_interrupted app_dir env_english.

Definition X_download_ok : Externals :=
  mkExternals yt_dlp_ok farrigh_ok app_dir env_english.

Definition w_single_wav : World := mkWorld media_fs ["L"; "/media/a.wav"; "en"].
Definition w_session_directory : World :=
  mkWorld media_fs ["L"; "/media"; "en"; "EN"; "fr"].

(** The language answers for the three entries of /media. *)
Definition w_languages : World := mkWorld media_fs ["en"; "EN"; "fr"].


(** Remote mode was chosen, with the downloads directory of an earlier run. *)
Definition w_remote_again : World :=
  mkWorld downloads_fs ["https://youtu.be/abc"; "en"].

End Scenario.

(** * Properties *)

(** ** Running the monad *)

Lemma bind_run_ret {A B} (m : M A) (k : A → M B) w a w1 t1 :
  m w = (Ret a, w1, t1) →
  (m ≫= k) w = (let '(r, w2, t2) := k a w1 in (r, w2, t1 ++ t2)).
Proof. intros H. unfold mbind, M_bind. by rewrite H. Qed.

Lemma bind_run_raise {A B} (m : M A) (k : A → M B) w e w1 t1 :
  m w = (Raise e, w1, t1) → (m ≫= k) w = (Raise e, w1, t1).
Proof. intros H. unfold mbind, M_bind. by rewrite H. Qed.


Lemma try_except_ret {A} (m : M A) c h w a w1 t1 :
  m w = (Ret a, w1, t1) → try_except m c h w = (Ret a, w1, t1).
Proof. intros H. unfold try_except. by rewrite H. Qed.

Lemma try_except_caught {A} (m : M A) c h w e w1 t1 :
  m w = (Raise e, w1, t1) → c e = true →
  try_except m c h w = (let '(r, w2, t2) := h e w1 in (r, w2, t1 ++ t2)).
Proof. intros H Hc. unfold try_except. by rewrite H, Hc. Qed.

Lemma try_except_uncaught {A} (m : M A) c h w e w1 t1 :
  m w = (Raise e, w1, t1) → c e = false →
  try_except m c h w = (Raise e, w1, t1).
Proof. intros H Hc. unfold try_except. by rewrite H, Hc. Qed.

Lemma input_run prompt w line rest :
  stdin w = line :: rest →
  input prompt w = (Ret line, mkWorld (fs w) rest, [EPrompt prompt]).
Proof. intros H. unfold input. by rewrite H. Qed.

Lemma input_eof prompt w :
  stdin w = [] → input prompt w = (Raise EOFError, w, [EPrompt prompt]).
Proof. intros H. unfold input. by rewrite H. Qed.

(** Run a leading [input] whose line is available. *)
Ltac run_input :=
  erewrite bind_run_ret;
  [| apply input_run; first [eassumption | reflexivity]].

(** ** Traces of composed computations *)

Lemma emits_only_bind {A B} P (m : M A) (k : A → M B) :
  emits_only P m → (∀ a, emits_only P (k a)) → emits_only P (m ≫= k).
Proof.
  intros Hm Hk w r w' t. unfold mbind, M_bind.
  destruct (m w) as [[[a|e] w1] t1] eqn:Hmw.
  - destruct (k a w1) as [[r2 w2] t2] eqn:Hkw. intros [= <- <- <-].
    apply Forall_app. split; [by eapply Hm | by eapply Hk].
  - intros [= <- <- <-]. by eapply Hm.
Qed.

Lemma emits_only_input P prompt : P (EPrompt prompt) → emits_only P (input prompt).
Proof.
  intros HP w r w' t. unfold input.
  destruct (stdin w); intros [= <- <- <-]; by constructor.
Qed.

Lemma emits_only_for_each {A} P (xs : list A) (body : A → M unit) :
  (∀ x, emits_only P (body x)) → emits_only P (for_each xs body).
Proof.
  intros Hb. induction xs as [|x xs IH]; simpl.
  - intros w r w' t [= <- <- <-]. constructor.
  - apply emits_only_bind; [apply Hb | intros _; exact IH].
Qed.

Lemma fatal_safe_clean {A} (m : M A) :
  emits_only (λ ev, failed_run ev = false) m → fatal_safe m.
Proof. intros H w r w' t Hrun. left. by eapply H. Qed.

Lemma fatal_safe_bind {A B} (m : M A) (k : A → M B) :
  fatal_safe m → (∀ a, fatal_safe (k a)) → fatal_safe (m ≫= k).
Proof.
  intros Hm Hk w r w' t. unfold mbind, M_bind.
  destruct (m w) as [[[a|e] w1] t1] eqn:Hmw.
  - destruct (k a w1) as [[r2 w2] t2] eqn:Hkw. intros [= <- <- <-].
    destruct (Hm _ _ _ _ Hmw) as [Hc1|[Hr _]]; [|discriminate].
    destruct (Hk _ _ _ _ _ Hkw) as [Hc2|[Hr (pre & cmd & n & px & msg & Hn & Ht & Hpre)]].
    + left. apply Forall_app. by split.
    + right. split; [exact Hr|].
      exists (t1 ++ pre), cmd, n, px, msg. split; [exact Hn|].
      split; [by rewrite Ht, app_assoc|].
      apply Forall_app. by split.
  - intros [= <- <- <-].
    destruct (Hm _ _ _ _ Hmw) as [Hc|[Hr Hf]]; [by left|].
    right. split; [|exact Hf]. by inversion Hr.
Qed.

Lemma fatal_safe_ret {A} (a : A) : fatal_safe (mret a).
Proof. intros w r w' t [= <- <- <-]. left. constructor. Qed.

Lemma fatal_safe_raise {A} e : fatal_safe (raise e : M A).
Proof. intros w r w' t [= <- <- <-]. left. constructor. Qed.

Lemma fatal_safe_emit ev : failed_run ev = false → fatal_safe (emit ev).
Proof. intros H w r w' t [= <- <- <-]. left. by repeat constructor. Qed.

Lemma fatal_safe_input prompt : fatal_safe (input prompt).
Proof. apply fatal_safe_clean. by apply emits_only_input. Qed.

Lemma fatal_safe_is_dir p : fatal_safe (is_dir p).
Proof. intros w r w' t [= <- <- <-]. left. constructor. Qed.

Lemma fatal_safe_glob_star p : fatal_safe (glob_star p).
Proof. intros w r w' t [= <- <- <-]. left. constructor. Qed.

Lemma fatal_safe_for_each {A} (xs : list A) (body : A → M unit) :
  (∀ x, fatal_safe (body x)) → fatal_safe (for_each xs body).
Proof.
  intros Hb. induction xs as [|x xs IH]; simpl.
  - apply fatal_safe_ret.
  - apply fatal_safe_bind; [apply Hb | intros _; exact IH].
Qed.

(** The failed child process of a fatal trace is the one in its tail. *)
Lemma fatal_tail_run t cmd n :
  fatal_tail t → ERun cmd (Exited n) ∈ t → n ≠ 0 →
  ∃ pre prefix message,
    t = pre ++ [ERun cmd (Exited n);
                ELogError prefix (CalledProcessError cmd n);
                EPrint message]
    ∧ clean pre.
Proof.
  intros (pre & cmd' & n' & px & msg & Hn' & -> & Hpre) Hin Hn.
  apply elem_of_app in Hin as [Hin|Hin].
  - exfalso. unfold clean in Hpre. rewrite Forall_forall in Hpre.
    specialize (Hpre _ Hin). simpl in Hpre.
    apply negb_false_iff, Z.eqb_eq in Hpre. contradiction.
  - apply elem_of_cons in Hin as [Hin|Hin].
    + injection Hin as -> ->. by exists pre, px, msg.
    + exfalso.
      apply elem_of_cons in Hin as [?|Hin]; [done|].
      apply elem_of_cons in Hin as [?|Hin]; [done|].
      by apply elem_of_nil in Hin.
Qed.

(** In a trace that ends with the first failed child process, its log record
    and a message, whatever follows that child process is the log record and
    the message. *)
Lemma after_failed_run pre cmd n prefix message pre2 post :
  clean pre → n ≠ 0 →
  pre ++ [ERun cmd (Exited n);
          ELogError prefix (CalledProcessError cmd n);
          EPrint message]
  = pre2 ++ ERun cmd (Exited n) :: post →
  post = [ELogError prefix (CalledProcessError cmd n); EPrint message].
Proof.
  intros Hpre Hn Heq.
  assert (Hnot : ERun cmd (Exited n) ∉ pre).
  { intros Hin. unfold clean in Hpre. rewrite Forall_forall in Hpre.
    specialize (Hpre _ Hin). simpl in Hpre.
    apply negb_false_iff, Z.eqb_eq in Hpre. contradiction. }
  apply app_eq_app in Heq as [l [[Hl Hr]|[Hl Hr]]].
  - destruct l as [|x l].
    + by injection Hr as ->.
    + exfalso. injection Hr as <- _. apply Hnot. rewrite Hl.
      apply elem_of_app. right. left.
  - destruct l as [|x l]; [by injection Hr as ->|].
    exfalso. injection Hr as _ Hr.
    destruct l as [|y l]; [discriminate Hr|]. injection Hr as _ Hr.
    destruct l as [|z l]; [discriminate Hr|]. injection Hr as _ Hr.
    by destruct l.
Qed.

Lemma pipe_safe_bind {A} (m : M A) (k : A → M unit) :
  emits_only (λ ev, is_farrigh ev = false) m →
  (∀ a, pipe_safe (k a)) → pipe_safe (m ≫= k).
Proof.
  intros Hm Hk w r w' t. unfold mbind, M_bind.
  destruct (m w) as [[[a|e0] w1] t1] eqn:Hmw.
  - destruct (k a w1) as [[r2 w2] t2] eqn:Hkw. intros [= <- <- <-] cfg e Hin He.
    apply elem_of_app in Hin as [Hin|Hin].
    + exfalso. pose proof (Hm _ _ _ _ Hmw) as Hf.
      rewrite Forall_forall in Hf. by specialize (Hf _ Hin).
    + by eapply Hk.
  - intros [= <- <- <-] cfg e Hin He.
    exfalso. pose proof (Hm _ _ _ _ Hmw) as Hf.
    rewrite Forall_forall in Hf. by specialize (Hf _ Hin).
Qed.

Lemma pipe_safe_ret : pipe_safe (mret tt).
Proof. intros w r w' t [= <- <- <-] cfg e Hin. by apply elem_of_nil in Hin. Qed.

(** ** The format probe *)

Lemma is_wav_file_run p w : is_wav_file p w = (Ret (probe (fs w) p), w, []).
Proof.
  unfold is_wav_file, probe, try_except, mbind, M_bind, open_read4.
  destruct (fs_open_read (fs w) p) as [e|data]; reflexivity.
Qed.




(** ** Case mapping *)







(** ** Paths *)



Lemma parent_joinpath d n : PathOps.parent (PathOps.joinpath d n) = d.
Proof.
  destruct d as [a ps]. unfold PathOps.parent, PathOps.joinpath. simpl.
  by rewrite removelast_last.
Qed.


Section Properties.

Variable X : Externals.

(** ** The dispatcher *)

Lemma transcribe_file_not_wav file_path language_sign w :
  probe (fs w) file_path = false →
  transcribe_file X file_path language_sign w
  = (Ret tt, w, [EDispatch file_path language_sign;
                 EPrint (skip_message file_path)]).
Proof.
  intros Hp. unfold transcribe_file.
  unfold mbind at 1. unfold M_bind, emit.
  rewrite (bind_run_ret _ _ _ _ _ _ (is_wav_file_run file_path w)).
  rewrite Hp. reflexivity.
Qed.

(** C4.  When the format probe does not classify the path as WAV,
    [transcribe_file] returns normally, leaves the world (file system and
    pending input) as it was, and its only output is the skip message: the
    pipeline is not invoked, no process is run and nothing is logged. *)
Theorem C4_non_wav_short_circuits (file_path : Path) (language_sign : string)
    (w : World) :
  is_wav_file file_path w = (Ret false, w, []) →
  ∃ t, transcribe_file X file_path language_sign w = (Ret tt, w, t)
       ∧ t = [EDispatch file_path language_sign;
              EPrint (skip_message file_path)]
       ∧ filter (λ ev, is_farrigh ev || is_run ev || is_log ev) t = [].
Proof.
  rewrite is_wav_file_run. intros H.
  assert (Hp : probe (fs w) file_path = false) by congruence.
  eexists. split; [by apply transcribe_file_not_wav|].
  split; reflexivity.
Qed.

(** [transcribe_file] with its monadic plumbing flattened. *)
Lemma transcribe_file_run file_path language_sign w :
  transcribe_file X file_path language_sign w =
  if negb (probe (fs w) file_path) then
    (Ret tt, w, [EDispatch file_path language_sign;
                 EPrint (skip_message file_path)])
  else
    let k := dict_get (LANGUAGE_API_KEYS X) (Str.upper language_sign) in
    if negb (truthy k) then
      (Ret tt, w, [EDispatch file_path language_sign;
                   EPrint (not_found_message language_sign)])
    else
      let cfg := make_config file_path language_sign (default "" k) in
      let w' := mkWorld (farrigh X cfg (fs w)).2 (stdin w) in
      match (farrigh X cfg (fs w)).1 with
      | None =>
          (Ret tt, w',
           [EDispatch file_path language_sign;
            EPrint (transcribing_message file_path);
            EFarrigh cfg None;
            EPrint completed_message])
      | Some e =>
          if isinstance_Exception e then
            (Ret tt, w',
             [EDispatch file_path language_sign;
              EPrint (transcribing_message file_path);
              EFarrigh cfg (Some e);
              ELogError "Error during transcription: " e;
              EPrint failed_message])
          else
            (Raise e, w',
             [EDispatch file_path language_sign;
              EPrint (transcribing_message file_path);
              EFarrigh cfg (Some e)])
      end.
Proof.
  unfold transcribe_file.
  unfold mbind at 1. unfold M_bind, emit.
  rewrite (bind_run_ret _ _ _ _ _ _ (is_wav_file_run file_path w)).
  destruct (probe (fs w) file_path); [|reflexivity]. cbn [negb].
  cbv zeta.
  destruct (truthy (dict_get (LANGUAGE_API_KEYS X) (Str.upper language_sign)));
    [|reflexivity].
  cbn [negb].
  unfold try_except, mbind, M_bind, print, emit, drain_farrigh,
    logging_error.
  destruct (farrigh X _ (fs w)) as [[e|] fs'] eqn:Hf; cbn.
  - destruct (isinstance_Exception e); reflexivity.
  - reflexivity.
Qed.

(** ** The credential registry *)

Lemma dict_get_recognized code var :
  (code, var) ∈ recognized →
  dict_get (LANGUAGE_API_KEYS X) code = getenv X var.
Proof.
  unfold recognized. rewrite !elem_of_cons, elem_of_nil.
  intros [H|[H|[H|[H|[]]]]]; inversion H; subst; reflexivity.
Qed.

Lemma dict_get_unrecognized k :
  (∀ var, (k, var) ∉ recognized) →
  dict_get (LANGUAGE_API_KEYS X) k = None.
Proof.
  intros Hk. unfold dict_get, LANGUAGE_API_KEYS.
  destruct (decide (k = "EN")) as [->|?].
  { exfalso. apply (Hk "WIT_API_KEY_ENGLISH"). apply list_elem_of_In.
    simpl. tauto. }
  destruct (decide (k = "AR")) as [->|?].
  { exfalso. apply (Hk "WIT_API_KEY_ARABIC"). apply list_elem_of_In.
    simpl. tauto. }
  destruct (decide (k = "FR")) as [->|?].
  { exfalso. apply (Hk "WIT_API_KEY_FRENCH"). apply list_elem_of_In.
    simpl. tauto. }
  destruct (decide (k = "JA")) as [->|?].
  { exfalso. apply (Hk "WIT_API_KEY_JAPANESE"). apply list_elem_of_In.
    simpl. tauto. }
  rewrite !lookup_insert_ne by done. by rewrite lookup_singleton_ne.
Qed.

Lemma any_values_keys :
  any_values (LANGUAGE_API_KEYS X)
  = existsb (λ cv, truthy (getenv X cv.2)) recognized.
Proof.
  unfold any_values.
  apply eq_true_iff_eq. rewrite bool_decide_eq_true, existsb_exists.
  rewrite map_Exists_lookup. split.
  - intros (k & v & Hl & Hv).
    destruct (decide (k ∈ recognized.*1)) as [Hin|Hn].
    + apply list_elem_of_fmap in Hin as [[c var] [Hk Hin]].
      simpl in Hk. subst c.
      exists (k, var). split; [by apply list_elem_of_In|].
      pose proof (dict_get_recognized _ _ Hin) as Hg.
      unfold dict_get in Hg. rewrite Hl in Hg. simpl in *. by rewrite <- Hg.
    + assert (Hu : dict_get (LANGUAGE_API_KEYS X) k = None).
      { apply dict_get_unrecognized. intros var Hin. apply Hn.
        apply list_elem_of_fmap. by exists (k, var). }
      unfold dict_get in Hu. rewrite Hl in Hu. simpl in Hu. subst v.
      discriminate.
  - intros ([code var] & Hin & Ht). simpl in Ht.
    apply list_elem_of_In in Hin.
    pose proof (dict_get_recognized _ _ Hin) as Hg.
    unfold dict_get in Hg.
    destruct (LANGUAGE_API_KEYS X !! code) as [v|] eqn:Hl.
    + exists code, v. split; [done|]. simpl in Hg. by rewrite Hg.
    + simpl in Hg. rewrite <- Hg in Ht. discriminate.
Qed.

(** C3.  When none of the four recognized language codes has a
    credential in the environment (each variable is unset or empty), the
    script prints the diagnostic and exits with status 1; the trace holds
    that one message and no prompt, and the world is untouched. *)
Theorem C3_no_credentials_exit_before_prompt (w : World) :
  (∀ code var, (code, var) ∈ recognized → truthy (getenv X var) = false) →
  ∃ r t,
    script X w = (r, w, t)
    ∧ process_exit r = ExitStatus 1
    ∧ t = [EPrint missing_keys_message]
    ∧ filter (λ ev, is_prompt ev) t = [].
Proof.
  intros Hnone.
  assert (Hany : any_values (LANGUAGE_API_KEYS X) = false).
  { rewrite any_values_keys. apply not_true_is_false.
    rewrite existsb_exists. intros ([code var] & Hin & Ht).
    apply list_elem_of_In in Hin. simpl in Ht.
    rewrite (Hnone _ _ Hin) in Ht. discriminate. }
  exists (Raise (SystemExit 1)), [EPrint missing_keys_message].
  unfold script. rewrite Hany. cbn [negb].
  repeat split; reflexivity.
Qed.


Lemma truthy_Some key : key ≠ "" → truthy (Some key) = true.
Proof.
  intros Hk. unfold truthy. apply negb_true_iff.
  by apply String.eqb_neq.
Qed.


(** C8.  For a file that passes the format probe and a language sign whose
    lookup resolves to a (non-empty) credential, the pipeline is invoked
    exactly once, and the bundle it receives has: the file as the only
    input, 3 download retries, an empty playlist filter, the language sign
    as typed, the credential as the only access token, a maximum cutting
    duration of 5, 1 minimum word per segment, the output formats TXT and
    SRT, and the parent directory of the file as output directory. *)
Theorem C8_configuration_bundle (file_path : Path) (language_sign key : string)
    (w : World) :
  is_wav_file file_path w = (Ret true, w, []) →
  dict_get (LANGUAGE_API_KEYS X) (Str.upper language_sign) = Some key →
  key ≠ "" →
  ∃ cfg r w' t,
    transcribe_file X file_path language_sign w
    = (r, w', [EDispatch file_path language_sign;
               EPrint (transcribing_message file_path);
               EFarrigh cfg (farrigh X cfg (fs w)).1] ++ t)
    ∧ filter (λ ev, is_farrigh ev) t = []
    ∧ Config.urls_or_paths (Config.input cfg) = [PathOps.str file_path]
    ∧ Config.download_retries (Config.input cfg) = 3
    ∧ Config.playlist_items (Config.input cfg) = ""
    ∧ Config.language (Config.whisper cfg) = language_sign
    ∧ Config.wit_client_access_tokens (Config.wit cfg) = [key]
    ∧ Config.max_cutting_duration (Config.wit cfg) = 5
    ∧ Config.min_words_per_segment (Config.output cfg) = 1
    ∧ Config.output_formats (Config.output cfg) = [TXT; SRT]
    ∧ Config.output_dir (Config.output cfg)
      = PathOps.str (PathOps.parent file_path).
Proof.
  rewrite is_wav_file_run. intros Hw Hget Hkey.
  assert (Hp : probe (fs w) file_path = true) by congruence.
  exists (make_config file_path language_sign key).
  rewrite transcribe_file_run, Hp. cbv zeta.
  rewrite Hget, (truthy_Some _ Hkey). cbn [negb default].
  destruct (farrigh X _ (fs w)) as [[e|] fs'] eqn:Hf; cbn [fst snd].
  - destruct (isinstance_Exception e); do 3 eexists;
      (split; [reflexivity|]); repeat split; reflexivity.
  - do 3 eexists. split; [reflexivity|]. repeat split; reflexivity.
Qed.

(** ** The converters and the downloader, flattened *)

Lemma convert_mp3_to_wav_run mp3_path w :
  convert_mp3_to_wav X mp3_path w =
  match PathOps.with_suffix mp3_path ".wav" with
  | None => (Raise (ValueError "empty name"), w, [])
  | Some q =>
      let cmd := mp3_command mp3_path q in
      let o := (run_process X cmd (fs w)).1 in
      let w1 := mkWorld (run_process X cmd (fs w)).2 (stdin w) in
      match o with
      | Exited n =>
          if decide (n = 0) then
            (Ret q, w1,
             [ERun cmd o; EPrint ("MP3 converted to WAV: " +:+ PathOps.str q)])
          else
            (Raise (SystemExit 1), w1,
             [ERun cmd o;
              ELogError "Error converting MP3 to WAV: "
                        (CalledProcessError cmd n);
              EPrint mp3_error_message])
      | NotStarted e => (Raise (OSError e), w1, [ERun cmd o])
      end
  end.
Proof.
  unfold convert_mp3_to_wav, with_suffix_wav.
  destruct (PathOps.with_suffix mp3_path ".wav") as [q|]; [|reflexivity].
  unfold mbind at 1. unfold M_bind at 1. unfold mret at 1. unfold M_ret at 1.
  unfold try_except, subprocess_run_check, mbind, M_bind. cbv zeta.
  destruct (run_process X (mp3_command mp3_path q) (fs w)) as [[n|e] fs'].
  - destruct n; reflexivity.
  - reflexivity.
Qed.

Lemma convert_video_to_audio_run video_path w :
  convert_video_to_audio X video_path w =
  match PathOps.with_suffix video_path ".wav" with
  | None => (Raise (ValueError "empty name"), w, [])
  | Some q =>
      let cmd := video_command video_path q in
      let o := (run_process X cmd (fs w)).1 in
      let w1 := mkWorld (run_process X cmd (fs w)).2 (stdin w) in
      match o with
      | Exited n =>
          if decide (n = 0) then
            (Ret q, w1,
             [ERun cmd o;
              EPrint ("Video converted to audio: " +:+ PathOps.str q)])
          else
            (Raise (SystemExit 1), w1,
             [ERun cmd o;
              ELogError "Error converting video to audio: "
                        (CalledProcessError cmd n);
              EPrint video_error_message])
      | NotStarted e => (Raise (OSError e), w1, [ERun cmd o])
      end
  end.
Proof.
  unfold convert_video_to_audio, with_suffix_wav.
  destruct (PathOps.with_suffix video_path ".wav") as [q|]; [|reflexivity].
  unfold mbind at 1. unfold M_bind at 1. unfold mret at 1. unfold M_ret at 1.
  unfold try_except, subprocess_run_check, mbind, M_bind. cbv zeta.
  destruct (run_process X (video_command video_path q) (fs w)) as [[n|e] fs'].
  - destruct n; reflexivity.
  - reflexivity.
Qed.

Lemma download_youtube_audio_run youtube_url w :
  download_youtube_audio X youtube_url w =
  let cmd := yt_dlp_command X youtube_url in
  let o := (run_process X cmd (fs w)).1 in
  let w1 := mkWorld (run_process X cmd (fs w)).2 (stdin w) in
  match o with
  | Exited n =>
      if decide (n = 0) then
        match downloaded_wavs X (fs w1) with
        | name :: _ =>
            (Ret (PathOps.joinpath
                    (PathOps.joinpath (script_dir X) "downloads") name),
             w1, [ERun cmd o])
        | [] => (Raise StopIteration, w1, [ERun cmd o])
        end
      else
        (Raise (SystemExit 1), w1,
         [ERun cmd o;
          ELogError "Error downloading YouTube audio: "
                    (CalledProcessError cmd n);
          EPrint download_error_message])
  | NotStarted e => (Raise (OSError e), w1, [ERun cmd o])
  end.
Proof.
  unfold download_youtube_audio, downloaded_wavs.
  unfold try_except, subprocess_run_check, next_glob_wav, mbind, M_bind.
  cbv zeta.
  destruct (run_process X (yt_dlp_command X youtube_url) (fs w))
    as [[n|e] fs'].
  - destruct n; try reflexivity. cbn [fs fst snd].
    destruct (fs_is_dir fs' _); [|reflexivity].
    destruct (filter _ _); reflexivity.
  - reflexivity.
Qed.

(** C9.  In Remote mode, when yt-dlp exits with status 0 and the downloads
    directory then lists no name ending in ".wav", [download_youtube_audio]
    raises StopIteration.  Its handler (for CalledProcessError only) does
    not run: nothing is logged, no message is printed, and the exception
    leaves [main] uncaught, so the process ends with a traceback instead of
    the log-message-exit path. *)
Theorem C9_download_without_wav_raises (youtube_url language_sign : string)
    (rest : list string) (w : World) :
  stdin w = youtube_url :: language_sign :: rest →
  (run_process X (yt_dlp_command X youtube_url) (fs w)).1 = Exited 0 →
  Forall (λ n, Str.endswith n ".wav" = false)
         (fs_scandir (run_process X (yt_dlp_command X youtube_url) (fs w)).2
                     (PathOps.joinpath (script_dir X) "downloads")) →
  ∃ w1 t,
    download_youtube_audio X youtube_url (mkWorld (fs w) rest)
    = (Raise StopIteration, w1,
       [ERun (yt_dlp_command X youtube_url) (Exited 0)])
    ∧ remote_mode X w = (Raise StopIteration, w1, t)
    ∧ t = [EPrompt url_prompt; EPrompt remote_language_prompt;
           ERun (yt_dlp_command X youtube_url) (Exited 0)]
    ∧ isinstance_CalledProcessError StopIteration = false
    ∧ process_exit (Raise StopIteration) = Traceback StopIteration
    ∧ filter (λ ev, is_log ev || is_print ev) t = [].
Proof.
  intros Hin Hrun Hnone.
  assert (Hd : download_youtube_audio X youtube_url (mkWorld (fs w) rest)
               = (Raise StopIteration,
                  mkWorld (run_process X (yt_dlp_command X youtube_url)
                                       (fs w)).2 rest,
                  [ERun (yt_dlp_command X youtube_url) (Exited 0)])).
  { rewrite download_youtube_audio_run. cbv zeta. cbn [fs stdin].
    rewrite Hrun. rewrite decide_True by done.
    unfold downloaded_wavs. cbn [fs].
    destruct (fs_is_dir _ _); [|reflexivity].
    replace (filter _ _) with (@nil string); [reflexivity|].
    symmetry. induction Hnone as [|n ns Hn _ IH]; [reflexivity|].
    rewrite filter_cons, decide_False; [exact IH|]. by rewrite Hn. }
  eexists _, _. split; [exact Hd|].
  split; [|repeat split; reflexivity].
  unfold remote_mode.
  do 2 run_input.
  cbn [fs]. rewrite (bind_run_raise _ _ _ _ _ _ Hd). reflexivity.
Qed.

(** ** A failed child process is fatal *)

Lemma transcribe_file_no_run file_path language_sign :
  emits_only (λ ev, is_run ev = false)
             (transcribe_file X file_path language_sign).
Proof.
  intros w r w' t. rewrite transcribe_file_run. cbv zeta.
  destruct (probe (fs w) file_path); cbn [negb];
    [|intros [= <- <- <-]; by repeat constructor].
  destruct (truthy _); cbn [negb];
    [|intros [= <- <- <-]; by repeat constructor].
  destruct (farrigh X _ (fs w)).1 as [e|];
    [destruct (isinstance_Exception e)|];
    intros [= <- <- <-]; by repeat constructor.
Qed.

Lemma fatal_safe_transcribe_file file_path language_sign :
  fatal_safe (transcribe_file X file_path language_sign).
Proof.
  apply fatal_safe_clean. intros w r w' t Hrun.
  eapply Forall_impl; [by eapply transcribe_file_no_run|].
  by intros [] H.
Qed.

Ltac fatal_cases :=
  cbv zeta;
  repeat match goal with
    | |- context [match ?x with _ => _ end] => destruct x
    end;
  intros [= <- <- <-]; subst;
  first
    [ left; by repeat constructor
    | right; split; [reflexivity|];
      eexists [], _, _, _, _; split; [eassumption|];
      split; [reflexivity | constructor] ].

Lemma fatal_safe_convert_mp3_to_wav mp3_path :
  fatal_safe (convert_mp3_to_wav X mp3_path).
Proof. intros w r w' t. rewrite convert_mp3_to_wav_run. fatal_cases. Qed.

Lemma fatal_safe_convert_video_to_audio video_path :
  fatal_safe (convert_video_to_audio X video_path).
Proof. intros w r w' t. rewrite convert_video_to_audio_run. fatal_cases. Qed.

Lemma fatal_safe_download_youtube_audio youtube_url :
  fatal_safe (download_youtube_audio X youtube_url).
Proof. intros w r w' t. rewrite download_youtube_audio_run. fatal_cases. Qed.

Ltac fatal_compose :=
  repeat first
    [ apply fatal_safe_transcribe_file
    | apply fatal_safe_convert_mp3_to_wav
    | apply fatal_safe_convert_video_to_audio
    | apply fatal_safe_download_youtube_audio
    | apply fatal_safe_input
    | apply fatal_safe_is_dir
    | apply fatal_safe_glob_star
    | apply fatal_safe_ret
    | apply fatal_safe_raise
    | apply fatal_safe_emit; reflexivity
    | apply fatal_safe_bind; [|intros ?]
    | match goal with
      | |- fatal_safe (if ?b then _ else _) => destruct b
      end ].

Lemma fatal_safe_local_dir_entry file : fatal_safe (local_dir_entry X file).
Proof. unfold local_dir_entry. fatal_compose. Qed.

Lemma fatal_safe_main : fatal_safe (main X).
Proof.
  unfold main, remote_mode, local_mode, local_directory, local_single_file,
    print, sys_exit.
  fatal_compose.
  apply fatal_safe_for_each, fatal_safe_local_dir_entry.
Qed.

Lemma fatal_safe_script : fatal_safe (script X).
Proof.
  unfold script, print, sys_exit.
  destruct (negb _); [fatal_compose | apply fatal_safe_main].
Qed.

(** C2.  Whenever a run of the script contains a child process (yt-dlp or
    ffmpeg) that exited with a non-zero status, the script ends by
    [sys.exit(1)]: the process exit status is 1, and the trace ends with the
    failed run, the log record of the failure and a message to the user.
    Whatever follows the failed run in the trace is that log record and that
    message: the pipeline is not invoked after it. *)
Theorem C2_tool_failure_is_fatal (w w' : World) (r : result unit)
    (t : list event) (cmd : list string) (n : Z) :
  script X w = (r, w', t) →
  ERun cmd (Exited n) ∈ t →
  n ≠ 0 →
  r = Raise (SystemExit 1)
  ∧ process_exit r = ExitStatus 1
  ∧ ∃ prefix message,
      (∃ pre, t = pre ++ [ERun cmd (Exited n);
                          ELogError prefix (CalledProcessError cmd n);
                          EPrint message])
      ∧ (∀ pre post,
            t = pre ++ ERun cmd (Exited n) :: post →
            post = [ELogError prefix (CalledProcessError cmd n);
                    EPrint message]
            ∧ Forall (λ ev, is_farrigh ev = false) post).
Proof.
  intros Hrun Hin Hn.
  destruct (fatal_safe_script _ _ _ _ Hrun) as [Hc|[-> Hf]].
  - exfalso. unfold clean in Hc. rewrite Forall_forall in Hc.
    specialize (Hc _ Hin). simpl in Hc.
    apply negb_false_iff, Z.eqb_eq in Hc. contradiction.
  - split; [reflexivity|]. split; [reflexivity|].
    destruct (fatal_tail_run _ _ _ Hf Hin Hn) as (pre & px & msg & Ht & Hpre).
    exists px, msg. split; [by exists pre|].
    intros pre2 post Heq. rewrite Ht in Heq.
    rewrite (after_failed_run _ _ _ _ _ _ _ Hpre Hn Heq).
    split; [reflexivity | by repeat constructor].
Qed.

(** ** A pipeline exception is isolated *)

Lemma pipe_safe_transcribe_file file_path language_sign :
  pipe_safe (transcribe_file X file_path language_sign).
Proof.
  intros w r w' t. rewrite transcribe_file_run. cbv zeta.
  destruct (probe (fs w) file_path); cbn [negb]; [|by intros [= <- <- <-]].
  destruct (truthy _); cbn [negb]; [|by intros [= <- <- <-]].
  destruct (farrigh X _ (fs w)).1 as [e0|];
    [destruct (isinstance_Exception e0) eqn:He0|];
    intros [= <- <- <-]; try done.
  intros cfg e Hin He. exfalso.
  apply elem_of_cons in Hin as [?|Hin]; [done|].
  apply elem_of_cons in Hin as [?|Hin]; [done|].
  apply elem_of_cons in Hin as [?|Hin]; [|by apply elem_of_nil in Hin].
  simplify_eq. congruence.
Qed.

Ltac no_farrigh_cases :=
  cbv zeta;
  repeat match goal with
    | |- context [match ?x with _ => _ end] => destruct x
    end;
  intros [= <- <- <-]; by repeat constructor.

Lemma convert_mp3_to_wav_no_farrigh mp3_path :
  emits_only (λ ev, is_farrigh ev = false) (convert_mp3_to_wav X mp3_path).
Proof. intros w r w' t. rewrite convert_mp3_to_wav_run. no_farrigh_cases. Qed.

Lemma convert_video_to_audio_no_farrigh video_path :
  emits_only (λ ev, is_farrigh ev = false)
             (convert_video_to_audio X video_path).
Proof.
  intros w r w' t. rewrite convert_video_to_audio_run. no_farrigh_cases.
Qed.

Lemma pipe_safe_local_dir_entry file : pipe_safe (local_dir_entry X file).
Proof.
  unfold local_dir_entry.
  repeat match goal with
    | |- pipe_safe (if ?b then _ else _) => destruct b
    end;
    repeat first
      [ apply pipe_safe_transcribe_file
      | apply pipe_safe_ret
      | apply pipe_safe_bind;
        [ first [ apply convert_mp3_to_wav_no_farrigh
                | apply convert_video_to_audio_no_farrigh
                | by apply emits_only_input ]
        | intros ? ] ].
Qed.

Lemma for_each_cons_ret {A} (x : A) xs (body : A → M unit) w w1 t :
  body x w = (Ret tt, w1, t) →
  for_each (x :: xs) body w
  = (let '(r2, w2, t2) := for_each xs body w1 in (r2, w2, t ++ t2)).
Proof. intros H. simpl. by rewrite (bind_run_ret _ _ _ _ _ _ H). Qed.

(** C1.  When [transcribe_file] reaches the pipeline (the file passes the
    probe and the language resolves to a credential) and the pipeline raises
    an exception that is an instance of [Exception], [transcribe_file]
    returns normally; after the pipeline event the trace holds the log
    record of that exception and the message to the user.  In directory
    mode, an entry whose processing met such an exception completes
    normally, and the loop goes on with the remaining entries from the
    world that entry left. *)
Theorem C1_pipeline_exception_is_isolated (file_path : Path)
    (language_sign key : string) (e : exn) (w : World) :
  is_wav_file file_path w = (Ret true, w, []) →
  dict_get (LANGUAGE_API_KEYS X) (Str.upper language_sign) = Some key →
  key ≠ "" →
  (farrigh X (make_config file_path language_sign key) (fs w)).1 = Some e →
  isinstance_Exception e = true →
  (∃ w',
      transcribe_file X file_path language_sign w
      = (Ret tt, w',
         [EDispatch file_path language_sign;
          EPrint (transcribing_message file_path);
          EFarrigh (make_config file_path language_sign key) (Some e);
          ELogError "Error during transcription: " e;
          EPrint failed_message])
      ∧ process_exit (Ret tt) = ExitStatus 0)
  ∧ (∀ file rest w0 r w1 t,
        local_dir_entry X file w0 = (r, w1, t) →
        (∃ cfg e', EFarrigh cfg (Some e') ∈ t
                   ∧ isinstance_Exception e' = true) →
        r = Ret tt
        ∧ for_each (file :: rest) (local_dir_entry X) w0
          = (let '(r2, w2, t2) := for_each rest (local_dir_entry X) w1 in
             (r2, w2, t ++ t2))).
Proof.
  rewrite is_wav_file_run. intros Hw Hget Hkey Hf He.
  assert (Hp : probe (fs w) file_path = true) by congruence.
  split.
  - eexists. split; [|reflexivity].
    rewrite transcribe_file_run, Hp. cbv zeta.
    rewrite Hget, (truthy_Some _ Hkey). cbn [negb].
    change (default "" (Some key)) with key.
    rewrite Hf, He. reflexivity.
  - intros file rest w0 r w1 t Hrun (cfg & e' & Hin & He').
    assert (Hr : r = Ret tt)
      by exact (pipe_safe_local_dir_entry _ _ _ _ _ Hrun _ _ Hin He').
    subst r. split; [reflexivity|].
    by apply for_each_cons_ret.
Qed.

(** ** Classification of directory entries *)

Lemma local_dir_entry_unfold file :
  local_dir_entry X file =
  if decide (suffix_lower file = ".wav") then
    input (language_prompt_for file) ≫= transcribe_file X file
  else if decide (suffix_lower file = ".mp3") then
    convert_mp3_to_wav X file ≫= λ wav_file,
    input (language_prompt_for file) ≫= transcribe_file X wav_file
  else if decide (suffix_lower file ∈ [".mp4"; ".mkv"; ".avi"]) then
    convert_video_to_audio X file ≫= λ audio_file,
    input (language_prompt_for file) ≫= transcribe_file X audio_file
  else mret tt.
Proof.
  unfold local_dir_entry, is_video_suffix.
  destruct (String.eqb_spec (suffix_lower file) ".wav");
    [by rewrite decide_True|rewrite decide_False by done].
  destruct (String.eqb_spec (suffix_lower file) ".mp3");
    [by rewrite decide_True|rewrite decide_False by done].
  by destruct (decide (suffix_lower file ∈ [".mp4"; ".mkv"; ".avi"]));
    [rewrite bool_decide_eq_true_2|rewrite bool_decide_eq_false_2].
Qed.









(** ** Directory mode with working tools *)








(** ** A single file with no media extension *)



End Properties.

(** * Further properties *)

(** ** The mode answer *)





(** ** Aborting events and escaping exceptions, compositionally *)

Lemma aborting_calm {A} (m : M A) :
  emits_only (λ ev, abort_exn ev = None) m → aborting m.
Proof. intros H w r w' t Hrun. left. by eapply H. Qed.

Lemma aborting_bind {A B} (m : M A) (k : A → M B) :
  aborting m → (∀ a, aborting (k a)) → aborting (m ≫= k).
Proof.
  intros Hm Hk w r w' t. unfold mbind, M_bind.
  destruct (m w) as [[[a|e0] w1] t1] eqn:Hmw.
  - destruct (k a w1) as [[r2 w2] t2] eqn:Hkw. intros [= <- <- <-].
    destruct (Hm _ _ _ _ Hmw) as [Hc1|(? & ? & ? & _ & _ & _ & ?)]; [|done].
    destruct (Hk _ _ _ _ _ Hkw) as [Hc2|(pre & ev & e & -> & Hpre & Hev & Hr)].
    + left. apply Forall_app. by split.
    + right. exists (t1 ++ pre), ev, e. rewrite app_assoc.
      repeat split; try done. apply Forall_app. by split.
  - intros [= <- <- <-].
    destruct (Hm _ _ _ _ Hmw) as [Hc|(pre & ev & e & Ht & Hpre & Hev & Hr)];
      [by left|].
    right. exists pre, ev, e. repeat split; try done. by injection Hr as ->.
Qed.

Lemma aborting_for_each {A} (xs : list A) (body : A → M unit) :
  (∀ x, aborting (body x)) → aborting (for_each xs body).
Proof.
  intros Hb. induction xs as [|x xs IH]; simpl.
  - intros w r w' t [= <- <- <-]. left. constructor.
  - apply aborting_bind; [apply Hb | intros _; exact IH].
Qed.

(** An aborting event of an aborting run is its last event and decides its
    result. *)
Lemma aborting_last {A} (r : result A) (t : list event) ev e :
  (calm t
   ∨ ∃ pre ev' e', t = pre ++ [ev'] ∧ calm pre
                   ∧ abort_exn ev' = Some e' ∧ r = Raise e') →
  ev ∈ t → abort_exn ev = Some e →
  r = Raise e ∧ ∃ pre, t = pre ++ [ev].
Proof.
  intros [Hc|(pre & ev' & e' & -> & Hpre & Hev' & ->)] Hin Hev.
  - exfalso. unfold calm in Hc. rewrite Forall_forall in Hc.
    specialize (Hc _ Hin). congruence.
  - apply elem_of_app in Hin as [Hin|Hin].
    + exfalso. unfold calm in Hpre. rewrite Forall_forall in Hpre.
      specialize (Hpre _ Hin). congruence.
    + apply list_elem_of_singleton in Hin as ->.
      split; [congruence|by exists pre].
Qed.





(** ** Requests to the pipeline, compositionally *)

Lemma emits_only_impl {A} (P Q : event → Prop) (m : M A) :
  (∀ ev, P ev → Q ev) → emits_only P m → emits_only Q m.
Proof.
  intros HPQ Hm w r w' t Hrun.
  eapply Forall_impl; [by eapply Hm|exact HPQ].
Qed.

(** [emits_only_bind], with the continuation looked at only where the first
    part returned. *)
Lemma emits_only_bind_ret {A B} P (m : M A) (k : A → M B) :
  emits_only P m →
  (∀ w a w1 t1, m w = (Ret a, w1, t1) → emits_only P (k a)) →
  emits_only P (m ≫= k).
Proof.
  intros Hm Hk w r w' t. unfold mbind, M_bind.
  destruct (m w) as [[[a|e] w1] t1] eqn:Hmw.
  - destruct (k a w1) as [[r2 w2] t2] eqn:Hkw. intros [= <- <- <-].
    apply Forall_app. split; [by eapply Hm | by eapply Hk].
  - intros [= <- <- <-]. by eapply Hm.
Qed.

Lemma requests_silent P ev : is_farrigh ev = false → requests P ev.
Proof. by destruct ev. Qed.

(** ** The log, compositionally *)

Lemma logged_app t1 t2 : logged t1 → logged t2 → logged (t1 ++ t2).
Proof.
  intros H1 H2. induction H1; simpl; [done|by constructor|by constructor].
Qed.

Lemma keeps_log_bind {A B} (m : M A) (k : A → M B) :
  keeps_log m → (∀ a, keeps_log (k a)) → keeps_log (m ≫= k).
Proof.
  intros Hm Hk w r w' t. unfold mbind, M_bind.
  destruct (m w) as [[[a|e] w1] t1] eqn:Hmw.
  - destruct (k a w1) as [[r2 w2] t2] eqn:Hkw. intros [= <- <- <-].
    apply logged_app; [by eapply Hm | by eapply Hk].
  - intros [= <- <- <-]. by eapply Hm.
Qed.

Lemma keeps_log_for_each {A} (xs : list A) (body : A → M unit) :
  (∀ x, keeps_log (body x)) → keeps_log (for_each xs body).
Proof.
  intros Hb. induction xs as [|x xs IH]; simpl.
  - intros w r w' t [= <- <- <-]. constructor.
  - apply keeps_log_bind; [apply Hb | intros _; exact IH].
Qed.

Lemma keeps_log_silent {A} (m : M A) :
  (∀ w, ∃ r, m w = (r, w, [])) → keeps_log m.
Proof.
  intros H w r w' t Hrun. destruct (H w) as [r0 H0].
  rewrite H0 in Hrun. injection Hrun as <- <- <-. constructor.
Qed.

Lemma keeps_log_emit ev :
  is_log ev = false → log_cause_of ev = None → keeps_log (emit ev).
Proof. intros H1 H2 w r w' t [= <- <- <-]. by repeat constructor. Qed.

Lemma keeps_log_input prompt : keeps_log (input prompt).
Proof.
  intros w r w' t. unfold input.
  destruct (stdin w); intros [= <- <- <-]; by repeat constructor.
Qed.

Lemma log_cause_not_log ev e : log_cause_of ev = Some e → is_log ev = false.
Proof. by destruct ev. Qed.

(** In such a trace a log record sits between its cause and a message, and
    a cause is followed by its log record and a message. *)
Lemma logged_inv t :
  logged t →
  ∀ pre ev post, t = pre ++ ev :: post →
    (∀ prefix e, ev = ELogError prefix e →
       ∃ pre' cause message post',
         pre = pre' ++ [cause] ∧ log_cause_of cause = Some e
         ∧ post = EPrint message :: post')
    ∧ (∀ e, log_cause_of ev = Some e →
         ∃ prefix message post',
           post = ELogError prefix e :: EPrint message :: post').
Proof.
  induction 1 as [|ev0 t0 Hl Hc _ IH|ev0 px e0 msg t0 Hc _ IH];
    intros pre ev post Heq.
  - by destruct pre.
  - destruct pre as [|x pre]; injection Heq as Hx Heq; subst.
    + split; [intros px e ->; discriminate|intros e He; congruence].
    + destruct (IH _ _ _ eq_refl) as [Ha Hb]. split; [|exact Hb].
      intros px e Hev. destruct (Ha _ _ Hev) as (pre' & c & m & post' & -> & ?).
      by exists (x :: pre'), c, m, post'.
  - destruct pre as [|x pre]; injection Heq as Hx Heq; subst.
    { split.
      - intros px' e ->. discriminate.
      - intros e He. exists px, msg, t0. congruence. }
    destruct pre as [|y pre]; injection Heq as Hy Heq; subst.
    { split.
      - intros px' e [= <- <-]. by exists [], x, msg, t0.
      - intros e He. discriminate. }
    destruct pre as [|z pre]; injection Heq as Hz Heq; subst.
    { split; [intros px' e ?|intros e ?]; discriminate. }
    destruct (IH _ _ _ eq_refl) as [Ha Hb]. split; [|exact Hb].
    intros px' e Hev. destruct (Ha _ _ Hev) as (pre' & c & m & post' & -> & ?).
    by exists (x :: ELogError px e0 :: EPrint msg :: pre'), c, m, post'.
Qed.

(** ** The WAV sibling of a path *)

Lemma length_append s t :
  String.length (s +:+ t) = (String.length s + String.length t)%nat.
Proof. induction s as [|c s IH]; simpl; [done|by rewrite IH]. Qed.

Lemma substring_all t : substring 0 (String.length t) t = t.
Proof. induction t as [|c t IH]; simpl; [done|by rewrite IH]. Qed.

Lemma substring_tail stem t :
  substring (String.length stem) (String.length t) (stem +:+ t) = t.
Proof. induction stem as [|c stem IH]; simpl; [apply substring_all|exact IH]. Qed.

Lemma substring_head stem t :
  substring 0 (String.length stem) (stem +:+ t) = stem.
Proof.
  induction stem as [|c stem IH]; simpl; [by destruct t|by rewrite IH].
Qed.

Lemma length_substring_le i m s : (String.length (substring i m s) ≤ m)%nat.
Proof.
  revert i m. induction s as [|c s IH]; intros [|i] [|m]; simpl; try lia.
  - specialize (IH 0%nat m). lia.
  - apply (IH i 0%nat).
  - apply (IH i (S m)).
Qed.

Lemma substring_head_nonempty k s :
  (0 < k)%nat → s ≠ "" → substring 0 k s ≠ "".
Proof. destruct k; [lia|]. by destruct s. Qed.

Lemma rfind_from_wav stem i acc :
  Str.rfind_from "." (stem +:+ ".wav") i acc
  = Some (i + String.length stem)%nat.
Proof.
  revert i acc. induction stem as [|c stem IH]; intros i acc; simpl.
  - f_equal. lia.
  - rewrite IH. f_equal. lia.
Qed.

Lemma suffix_of_wav_name a ps stem :
  stem ≠ "" → PathOps.suffix (mkPath a (ps ++ [stem +:+ ".wav"])) = ".wav".
Proof.
  intros Hstem. unfold PathOps.suffix, PathOps.name. cbn [parts].
  rewrite last_last. unfold Str.rfind. rewrite rfind_from_wav.
  rewrite length_append. cbn [String.length Nat.add].
  assert (0 < String.length stem)%nat by (destruct stem; [done|simpl; lia]).
  replace ((0 <? String.length stem)%nat) with true
    by (symmetry; by apply Nat.ltb_lt).
  replace ((String.length stem <? String.length stem + 4 - 1)%nat) with true
    by (symmetry; apply Nat.ltb_lt; lia).
  cbn [andb].
  replace (String.length stem + 4 - String.length stem)%nat
    with (String.length ".wav") by (simpl; lia).
  apply substring_tail.
Qed.

(** The stem [with_suffix] keeps is never empty. *)
Lemma stem_nonempty p :
  PathOps.name p ≠ "" → PathOps.suffix p ≠ "" →
  substring 0 (String.length (PathOps.name p)
               - String.length (PathOps.suffix p)) (PathOps.name p) ≠ "".
Proof.
  intros Hn Hs. apply substring_head_nonempty; [|done].
  revert Hs. unfold PathOps.suffix.
  destruct (Str.rfind "." (PathOps.name p)) as [i|]; [|done].
  destruct ((0 <? i)%nat && (i <? String.length (PathOps.name p) - 1)%nat)
    eqn:Hi; [|done].
  intros _. apply andb_true_iff in Hi as [H0 H1].
  apply Nat.ltb_lt in H0, H1.
  pose proof (length_substring_le i (String.length (PathOps.name p) - i)
                                  (PathOps.name p)).
  lia.
Qed.

Lemma wav_of_shape p :
  PathOps.name p ≠ "" →
  ∃ stem, stem ≠ ""
    ∧ wav_of p
      = mkPath (anchored p) (removelast (parts p) ++ [stem +:+ ".wav"]).
Proof.
  intros Hn. unfold wav_of, PathOps.with_suffix.
  destruct (String.eqb_spec (PathOps.name p) "") as [?|_]; [done|].
  destruct (String.eqb_spec (PathOps.suffix p) "") as [Hs|Hs]; simpl.
  - by exists (PathOps.name p).
  - eexists. split; [|reflexivity]. by apply stem_nonempty.
Qed.

Lemma wav_of_sibling p :
  PathOps.name p ≠ "" →
  PathOps.with_suffix p ".wav" = Some (wav_of p)
  ∧ PathOps.parent (wav_of p) = PathOps.parent p
  ∧ PathOps.suffix (wav_of p) = ".wav"
  ∧ wav_of (wav_of p) = wav_of p.
Proof.
  intros Hn. destruct (wav_of_shape p Hn) as (stem & Hstem & Hq).
  split.
  { unfold wav_of, PathOps.with_suffix.
    by destruct (String.eqb_spec (PathOps.name p) "") as [?|_]. }
  assert (Hsfx : PathOps.suffix (wav_of p) = ".wav")
    by (rewrite Hq; by apply suffix_of_wav_name).
  split; [|split; [exact Hsfx|]].
  - rewrite Hq. unfold PathOps.parent. cbn [anchored parts].
    by rewrite removelast_last.
  - unfold wav_of at 1. unfold PathOps.with_suffix. rewrite Hsfx.
    rewrite Hq. unfold PathOps.name. cbn [anchored parts].
    rewrite last_last, removelast_last.
    destruct (String.eqb_spec (stem +:+ ".wav") "") as [He|_].
    { by destruct stem. }
    cbn [String.eqb Ascii.eqb Bool.eqb default from_option id].
    rewrite length_append. cbn [String.length].
    replace (String.length stem + 4 - 4)%nat with (String.length stem) by lia.
    by rewrite substring_head.
Qed.


Section Extras.

Variable X : Externals.

Lemma main_run choice rest w :
  stdin w = choice :: rest →
  main X w =
  after_event (EPrompt mode_prompt)
    ((if String.eqb (Str.upper (Str.strip choice)) "Y" then remote_mode X
      else if String.eqb (Str.upper (Str.strip choice)) "L" then local_mode X
      else print "Invalid choice. Exiting." ;; sys_exit 1)
       (mkWorld (fs w) rest)).
Proof.
  intros Hin. unfold main. run_input. unfold after_event.
  by destruct (_ (mkWorld (fs w) rest)) as [[r w'] t].
Qed.



(** ** Conversions *)

Lemma with_suffix_Some p q :
  PathOps.with_suffix p ".wav" = Some q → PathOps.name p ≠ "" ∧ q = wav_of p.
Proof.
  intros H. split.
  - intros Hn. revert H. unfold PathOps.with_suffix. by rewrite Hn.
  - unfold wav_of. by rewrite H.
Qed.

(** What a conversion that returns has done. *)
Lemma conversion_returns (p q : Path) (w w' : World) (t : list event) :
  convert_mp3_to_wav X p w = (Ret q, w', t)
  ∨ convert_video_to_audio X p w = (Ret q, w', t) →
  PathOps.name p ≠ ""
  ∧ q = wav_of p
  ∧ stdin w' = stdin w
  ∧ ∃ cmd message,
      t = [ERun cmd (Exited 0); EPrint message]
      ∧ List.last cmd "" = PathOps.str q
      ∧ run_process X cmd (fs w) = (Exited 0, fs w').
Proof.
  intros [Hrun|Hrun];
    [rewrite convert_mp3_to_wav_run in Hrun
    |rewrite convert_video_to_audio_run in Hrun];
    (destruct (PathOps.with_suffix p ".wav") as [q0|] eqn:Hq; [|done]);
    destruct (with_suffix_Some _ _ Hq) as [Hn ->];
    revert Hrun; cbv zeta;
    (destruct (run_process X _ (fs w)) as [[n|e] fs'] eqn:Hp;
     cbn [fst snd]; [|done]);
    (destruct (decide (n = 0)) as [->|]; [|done]);
    intros [= <- <- <-]; repeat split; try done;
    eexists _, _; (split; [reflexivity|]); (split; [reflexivity|exact Hp]).
Qed.

(** X4.  A conversion that returns has run ffmpeg exactly once, with exit
    status 0 and the returned path as last argument, and printed one
    message; it read no input.  The path it returns is the sibling of the
    source: same directory, extension ".wav" in place of the source's
    (so converting it again would target the same path). *)
Theorem X4_conversion_returns_wav_sibling (p q : Path) (w w' : World)
    (t : list event) :
  convert_mp3_to_wav X p w = (Ret q, w', t)
  ∨ convert_video_to_audio X p w = (Ret q, w', t) →
  q = wav_of p
  ∧ PathOps.parent q = PathOps.parent p
  ∧ PathOps.suffix q = ".wav"
  ∧ wav_of q = q
  ∧ stdin w' = stdin w
  ∧ ∃ cmd message,
      t = [ERun cmd (Exited 0); EPrint message]
      ∧ List.last cmd "" = PathOps.str q
      ∧ run_process X cmd (fs w) = (Exited 0, fs w').
Proof.
  intros Hrun.
  destruct (conversion_returns _ _ _ _ _ Hrun) as (Hn & -> & Hin & Hev).
  destruct (wav_of_sibling p Hn) as (_ & Hpar & Hsfx & Hidem).
  by repeat split.
Qed.

(** ** Events that end the run *)

Lemma aborting_silent {A} (m : M A) :
  (∀ w, ∃ r, m w = (r, w, [])) → aborting m.
Proof.
  intros H w r w' t Hrun. destruct (H w) as [r0 H0].
  rewrite H0 in Hrun. injection Hrun as <- <- <-. left. constructor.
Qed.

Lemma aborting_emit ev : abort_exn ev = None → aborting (emit ev).
Proof. intros H w r w' t [= <- <- <-]. left. by repeat constructor. Qed.

Lemma aborting_input prompt : aborting (input prompt).
Proof. apply aborting_calm. by apply emits_only_input. Qed.

Lemma aborting_transcribe_file file_path language_sign :
  aborting (transcribe_file X file_path language_sign).
Proof.
  intros w r w' t. rewrite transcribe_file_run. cbv zeta.
  destruct (probe (fs w) file_path); cbn [negb];
    [|intros [= <- <- <-]; left; by repeat constructor].
  destruct (truthy _); cbn [negb];
    [|intros [= <- <- <-]; left; by repeat constructor].
  destruct (farrigh X _ (fs w)).1 as [e|];
    [destruct (isinstance_Exception e) eqn:He|]; intros [= <- <- <-].
  - left. repeat constructor. simpl. by rewrite He.
  - right. eexists [_; _], _, e. repeat split; try reflexivity.
    + by repeat constructor.
    + simpl. by rewrite He.
  - left. by repeat constructor.
Qed.

Ltac abort_cases :=
  cbv zeta;
  repeat match goal with
    | |- context [match ?x with _ => _ end] => destruct x
    end;
  intros [= <- <- <-]; subst;
  first
    [ left; by repeat constructor
    | right; eexists [], _, _; repeat split; reflexivity || constructor ].

Lemma aborting_convert_mp3_to_wav mp3_path :
  aborting (convert_mp3_to_wav X mp3_path).
Proof. intros w r w' t. rewrite convert_mp3_to_wav_run. abort_cases. Qed.

Lemma aborting_convert_video_to_audio video_path :
  aborting (convert_video_to_audio X video_path).
Proof. intros w r w' t. rewrite convert_video_to_audio_run. abort_cases. Qed.

Lemma aborting_download_youtube_audio youtube_url :
  aborting (download_youtube_audio X youtube_url).
Proof. intros w r w' t. rewrite download_youtube_audio_run. abort_cases. Qed.

Ltac abort_compose :=
  repeat first
    [ apply aborting_transcribe_file
    | apply aborting_convert_mp3_to_wav
    | apply aborting_convert_video_to_audio
    | apply aborting_download_youtube_audio
    | apply aborting_input
    | apply aborting_emit; reflexivity
    | apply aborting_silent; intros ?; eexists; reflexivity
    | apply aborting_bind; [|intros ?]
    | match goal with
      | |- aborting (if ?b then _ else _) => destruct b
      end ].

Lemma aborting_local_dir_entry file : aborting (local_dir_entry X file).
Proof. unfold local_dir_entry. abort_compose. Qed.

Lemma aborting_script : aborting (script X).
Proof.
  unfold script, main, remote_mode, local_mode, local_directory,
    local_single_file, print, sys_exit.
  abort_compose.
  apply aborting_for_each, aborting_local_dir_entry.
Qed.

(** X3.  A child process that cannot be started (the executable is missing
    or may not be run) makes [subprocess.run] raise [OSError], which none of
    the three handlers catches: in every run of the script holding such an
    attempt, the attempt is the last event (no log record, no message, no
    later file), and the script ends with that [OSError] as a traceback
    rather than by [sys.exit(1)]. *)
Theorem X3_tool_not_started_is_uncaught (w w' : World) (r : result unit)
    (t : list event) (cmd : list string) (en : errno) :
  script X w = (r, w', t) →
  ERun cmd (NotStarted en) ∈ t →
  r = Raise (OSError en)
  ∧ process_exit r = Traceback (OSError en)
  ∧ (∃ pre, t = pre ++ [ERun cmd (NotStarted en)])
  ∧ isinstance_CalledProcessError (OSError en) = false.
Proof.
  intros Hrun Hin.
  destruct (aborting_last _ _ _ (OSError en) (aborting_script _ _ _ _ Hrun) Hin)
    as [-> Hlast]; [reflexivity|].
  by repeat split.
Qed.

(** X5.  A pipeline exception outside [Exception] (KeyboardInterrupt, or a
    SystemExit raised inside the pipeline) is not isolated: in every run of
    the script in which the pipeline raised one, the pipeline event is the
    last event (nothing is logged or printed after it, no further entry of a
    batch is processed) and the exception is the result of the script; a
    SystemExit carries its own exit status. *)
Theorem X5_pipeline_base_exception_ends_run (w w' : World) (r : result unit)
    (t : list event) (cfg : Config.t) (e : exn) :
  script X w = (r, w', t) →
  EFarrigh cfg (Some e) ∈ t →
  isinstance_Exception e = false →
  r = Raise e
  ∧ (∃ pre, t = pre ++ [EFarrigh cfg (Some e)])
  ∧ (e = KeyboardInterrupt ∧ process_exit r = Traceback KeyboardInterrupt
     ∨ ∃ code, e = SystemExit code ∧ process_exit r = ExitStatus code).
Proof.
  intros Hrun Hin He.
  destruct (aborting_last _ _ _ e (aborting_script _ _ _ _ Hrun) Hin)
    as [-> Hlast]; [simpl; by rewrite He|].
  split; [reflexivity|]. split; [exact Hlast|].
  destruct e; try discriminate He; [right; by eexists|by left].
Qed.

(** ** Single-file mode, by cases *)



(** ** The exceptions that leave the script *)












(** ** What the pipeline is asked *)

Lemma emits_only_silent {A} P (m : M A) :
  (∀ w, ∃ r, m w = (r, w, [])) → emits_only P m.
Proof.
  intros H w r w' t Hrun. destruct (H w) as [r0 H0].
  rewrite H0 in Hrun. injection Hrun as <- <- <-. constructor.
Qed.

Lemma emits_only_emit P ev : P ev → emits_only P (emit ev).
Proof. intros H w r w' t [= <- <- <-]. by repeat constructor. Qed.

Lemma emits_only_for_each_in {A} P (xs : list A) (body : A → M unit) :
  (∀ x, x ∈ xs → emits_only P (body x)) → emits_only P (for_each xs body).
Proof.
  induction xs as [|x xs IH]; intros Hb; simpl.
  - intros w r w' t [= <- <- <-]. constructor.
  - apply emits_only_bind; [apply Hb; left|].
    intros _. apply IH. intros y Hy. apply Hb. by right.
Qed.

Lemma download_youtube_audio_no_farrigh youtube_url :
  emits_only (λ ev, is_farrigh ev = false) (download_youtube_audio X youtube_url).
Proof.
  intros w r w' t. rewrite download_youtube_audio_run. cbv zeta.
  repeat match goal with
    | |- context [match ?x with _ => _ end] => destruct x
    end;
  intros [= <- <- <-]; by repeat constructor.
Qed.

(** A truthy lookup in the registry is the non-empty value of the variable
    of a recognized code. *)
Lemma truthy_dict_get code :
  truthy (dict_get (LANGUAGE_API_KEYS X) code) = true →
  ∃ var key,
    (code, var) ∈ recognized ∧ getenv X var = Some key ∧ key ≠ ""
    ∧ dict_get (LANGUAGE_API_KEYS X) code = Some key.
Proof.
  intros Ht.
  destruct (decide (code ∈ recognized.*1)) as [Hin|Hn].
  - apply list_elem_of_fmap in Hin as [[c var] [Hc Hin]]. simpl in Hc. subst c.
    rewrite (dict_get_recognized _ _ _ Hin) in Ht |- *.
    destruct (getenv X var) as [key|] eqn:Henv; [|discriminate].
    exists var, key. split; [done|]. split; [done|]. split; [|done].
    intros Hk. rewrite Hk in Ht. discriminate Ht.
  - rewrite dict_get_unrecognized in Ht; [discriminate|].
    intros var Hin. apply Hn. apply list_elem_of_fmap. by exists (code, var).
Qed.

(** The one request [transcribe_file] can make. *)
Lemma transcribe_file_requests file_path language_sign :
  emits_only
    (requests (λ cfg, ∃ key,
       cfg = make_config file_path language_sign key
       ∧ key ≠ ""
       ∧ dict_get (LANGUAGE_API_KEYS X) (Str.upper language_sign) = Some key))
    (transcribe_file X file_path language_sign).
Proof.
  intros w r w' t. rewrite transcribe_file_run. cbv zeta.
  destruct (probe (fs w) file_path); cbn [negb];
    [|intros [= <- <- <-]; by repeat constructor].
  destruct (truthy _) eqn:Ht; cbn [negb];
    [|intros [= <- <- <-]; by repeat constructor].
  destruct (truthy_dict_get _ Ht) as (var & key & _ & _ & Hkey & Hget).
  rewrite Hget. change (default "" (Some key)) with key.
  destruct (farrigh X _ (fs w)).1 as [e|];
    [destruct (isinstance_Exception e)|]; intros [= <- <- <-];
    repeat constructor; by exists key.
Qed.

Lemma transcribe_file_credentialed file_path language_sign :
  emits_only (requests (credentialed X))
             (transcribe_file X file_path language_sign).
Proof.
  eapply emits_only_impl; [|apply transcribe_file_requests].
  intros [] H; try done. destruct H as (key & -> & Hkey & Hget).
  assert (Ht : truthy (dict_get (LANGUAGE_API_KEYS X)
                                (Str.upper language_sign)) = true)
    by (rewrite Hget; by apply truthy_Some).
  destruct (truthy_dict_get _ Ht) as (var & key' & Hin & Henv & _ & Hget').
  exists file_path, language_sign, key, (Str.upper language_sign), var.
  repeat split; try done. congruence.
Qed.

Ltac request_compose :=
  repeat first
    [ apply transcribe_file_credentialed
    | eapply emits_only_impl;
      [apply requests_silent
      |first [ apply convert_mp3_to_wav_no_farrigh
             | apply convert_video_to_audio_no_farrigh
             | apply download_youtube_audio_no_farrigh ] ]
    | apply emits_only_input; exact I
    | apply emits_only_emit; exact I
    | apply emits_only_silent; intros ?; eexists; reflexivity
    | apply emits_only_bind; [|intros ?]
    | match goal with
      | |- emits_only _ (if ?b then _ else _) => destruct b
      end ].

Lemma script_credentialed : emits_only (requests (credentialed X)) (script X).
Proof.
  unfold script, main, remote_mode, local_mode, local_directory,
    local_single_file, print, sys_exit.
  request_compose.
  apply emits_only_for_each. intros file. unfold local_dir_entry.
  request_compose.
Qed.

(** X7.  The pipeline is never invoked without a credential: every request
    the script makes, in any run, is the bundle of [transcribe_file] whose
    single access token is the non-empty value of an environment variable
    of a recognized language code, namely the code that the language sign
    given for that file spells when put in capitals. *)
Theorem X7_every_request_is_credentialed (w w' : World) (r : result unit)
    (t : list event) (cfg : Config.t) (o : option exn) :
  script X w = (r, w', t) →
  EFarrigh cfg o ∈ t →
  credentialed X cfg
  ∧ ∃ key code var,
      Config.wit_client_access_tokens (Config.wit cfg) = [key]
      ∧ key ≠ ""
      ∧ (code, var) ∈ recognized
      ∧ Str.upper (Config.language (Config.whisper cfg)) = code
      ∧ environ X !! var = Some key.
Proof.
  intros Hrun Hin.
  pose proof (script_credentialed _ _ _ _ Hrun) as Hall.
  rewrite Forall_forall in Hall. specialize (Hall _ Hin). simpl in Hall.
  split; [exact Hall|].
  destruct Hall as (p & l & key & code & var & -> & Hkey & Hrec & Hup & Henv).
  by exists key, code, var.
Qed.

(** ** Where directory mode reads and writes *)

Lemma lower_wav : Str.lower ".wav" = ".wav".
Proof. reflexivity. Qed.

Lemma transcribe_file_stays_in d file_path language_sign :
  PathOps.parent file_path = d → suffix_lower file_path = ".wav" →
  emits_only (requests (stays_in d))
             (transcribe_file X file_path language_sign).
Proof.
  intros Hd Hs. eapply emits_only_impl; [|apply transcribe_file_requests].
  intros [] H; try done. destruct H as (key & -> & _).
  exists file_path. simpl. by rewrite Hd.
Qed.

Lemma prompt_then_dispatch_stays_in d prompt file_path :
  PathOps.parent file_path = d → suffix_lower file_path = ".wav" →
  emits_only (requests (stays_in d))
             (input prompt ≫= transcribe_file X file_path).
Proof.
  intros Hd Hs. apply emits_only_bind; [by apply emits_only_input|].
  intros l. by apply transcribe_file_stays_in.
Qed.

Lemma local_dir_entry_stays_in d file :
  PathOps.parent file = d →
  emits_only (requests (stays_in d)) (local_dir_entry X file).
Proof.
  intros Hd. rewrite local_dir_entry_unfold.
  assert (Hconv : ∀ q w w1 t1,
    convert_mp3_to_wav X file w = (Ret q, w1, t1)
    ∨ convert_video_to_audio X file w = (Ret q, w1, t1) →
    emits_only (requests (stays_in d))
      (input (language_prompt_for file) ≫= transcribe_file X q)).
  { intros q w w1 t1 Hrun.
    destruct (conversion_returns _ _ _ _ _ Hrun) as (Hn & -> & _).
    destruct (wav_of_sibling file Hn) as (_ & Hpar & Hsfx & _).
    apply prompt_then_dispatch_stays_in; [congruence|].
    unfold suffix_lower. by rewrite Hsfx. }
  destruct (decide (suffix_lower file = ".wav")) as [Hw|Hw];
    [by apply prompt_then_dispatch_stays_in|].
  destruct (decide (suffix_lower file = ".mp3")) as [Hm|Hm].
  { apply emits_only_bind_ret.
    - eapply emits_only_impl;
        [apply requests_silent|apply convert_mp3_to_wav_no_farrigh].
    - intros w q w1 t1 Hrun. apply (Hconv q w w1 t1). by left. }
  destruct (decide (suffix_lower file ∈ [".mp4"; ".mkv"; ".avi"])) as [Hv|Hv].
  { apply emits_only_bind_ret.
    - eapply emits_only_impl;
        [apply requests_silent|apply convert_video_to_audio_no_farrigh].
    - intros w q w1 t1 Hrun. apply (Hconv q w w1 t1). by right. }
  intros w r w' t [= <- <- <-]. constructor.
Qed.

(** X8.  Directory mode stays in its directory: every request it makes to
    the pipeline, in any run, names a single input file that lies directly
    in the directory and is named *.wav (in any case: an entry dispatched as
    it is, or the WAV sibling of a converted entry), and names the directory
    itself as output directory. *)
Theorem X8_directory_requests_stay_in_directory (d : Path) (w w' : World)
    (r : result unit) (t : list event) (cfg : Config.t) (o : option exn) :
  local_directory X d w = (r, w', t) →
  EFarrigh cfg o ∈ t →
  ∃ q,
    Config.urls_or_paths (Config.input cfg) = [PathOps.str q]
    ∧ PathOps.parent q = d
    ∧ suffix_lower q = ".wav"
    ∧ Config.output_dir (Config.output cfg) = PathOps.str d.
Proof.
  intros Hrun Hin.
  assert (Hall : emits_only (requests (stays_in d)) (local_directory X d)).
  { unfold local_directory. apply emits_only_bind_ret.
    - apply emits_only_silent. intros w0. eexists. reflexivity.
    - intros w0 files w1 t1 [= <- _ _].
      apply emits_only_for_each_in. intros file Hf.
      apply local_dir_entry_stays_in.
      apply list_elem_of_fmap in Hf as (n & -> & _). apply parent_joinpath. }
  specialize (Hall _ _ _ _ Hrun). rewrite Forall_forall in Hall.
  exact (Hall _ Hin).
Qed.

(** ** The dispatcher as a whole *)


(** ** The credential check at startup *)

Lemma main_first_event w :
  ∃ r w' t, main X w = (r, w', EPrompt mode_prompt :: t).
Proof.
  destruct (stdin w) as [|choice rest] eqn:Hin.
  - exists (Raise EOFError), w, []. unfold main.
    by rewrite (bind_run_raise _ _ _ _ _ _ (input_eof mode_prompt _ Hin)).
  - rewrite (main_run _ _ _ Hin). unfold after_event.
    destruct (_ (mkWorld (fs w) rest)) as [[r w'] t]. by exists r, w', t.
Qed.

(** X10.  The script gets past its startup check, and then behaves as
    [main], exactly when at least one of the four recognized variables has
    a non-empty value: a variable set to the empty string does not count,
    nor does any other variable. *)
Theorem X10_startup_check (w : World) :
  (∃ code var, (code, var) ∈ recognized ∧ truthy (getenv X var) = true)
  ↔ script X w = main X w.
Proof.
  unfold script. rewrite any_values_keys. split.
  - intros (code & var & Hin & Ht).
    replace (existsb _ recognized) with true; [reflexivity|].
    symmetry. apply existsb_exists. exists (code, var).
    split; [by apply list_elem_of_In|exact Ht].
  - destruct (existsb _ recognized) eqn:Hany.
    + intros _. apply existsb_exists in Hany as ([code var] & Hin & Ht).
      exists code, var. split; [by apply list_elem_of_In|exact Ht].
    + cbn [negb]. destruct (main_first_event w) as (r & w' & t & ->).
      intros [= _ _ ?].
Qed.

(** ** Single-file mode and directory mode, whatever happens *)



(** ** Remote mode *)

Lemma filter_first {A} (P : A → Prop) `{∀ x, Decision (P x)} l1 x l2 :
  Forall (λ y, ¬ P y) l1 → P x →
  filter P (l1 ++ x :: l2) = x :: filter P l2.
Proof.
  intros Hl1 Hx. induction Hl1 as [|y l1 Hy _ IH]; simpl.
  - by rewrite filter_cons_True.
  - by rewrite filter_cons_False.
Qed.

(** X13.  Remote mode after a download that exits with status 0: the file
    dispatched is the first name ending in ".wav" in the listing of the
    downloads directory, whichever file the download wrote (a WAV file left
    by an earlier run and listed first is the one transcribed); the request
    made for it names the downloads directory as output directory. *)
Theorem X13_remote_mode_takes_first_wav (youtube_url language_sign : string)
    (rest l1 l2 : list string) (name : string) (w : World) :
  stdin w = youtube_url :: language_sign :: rest →
  (run_process X (yt_dlp_command X youtube_url) (fs w)).1 = Exited 0 →
  fs_is_dir (run_process X (yt_dlp_command X youtube_url) (fs w)).2
            (PathOps.joinpath (script_dir X) "downloads") = true →
  fs_scandir (run_process X (yt_dlp_command X youtube_url) (fs w)).2
             (PathOps.joinpath (script_dir X) "downloads")
  = l1 ++ name :: l2 →
  Forall (λ n, Str.endswith n ".wav" = false) l1 →
  Str.endswith name ".wav" = true →
  remote_mode X w
  = after_event (EPrompt url_prompt)
      (after_event (EPrompt remote_language_prompt)
         (after_event (ERun (yt_dlp_command X youtube_url) (Exited 0))
            (transcribe_file X
               (PathOps.joinpath
                  (PathOps.joinpath (script_dir X) "downloads") name)
               language_sign
               (mkWorld (run_process X (yt_dlp_command X youtube_url)
                                     (fs w)).2 rest))))
  ∧ (∀ r w' t cfg o,
        remote_mode X w = (r, w', t) → EFarrigh cfg o ∈ t →
        Config.urls_or_paths (Config.input cfg)
        = [PathOps.str (PathOps.joinpath
                          (PathOps.joinpath (script_dir X) "downloads") name)]
        ∧ Config.output_dir (Config.output cfg)
          = PathOps.str (PathOps.joinpath (script_dir X) "downloads")).
Proof.
  intros Hin Hrun Hdir Hls Hl1 Hname.
  assert (Hd : download_youtube_audio X youtube_url (mkWorld (fs w) rest)
    = (Ret (PathOps.joinpath (PathOps.joinpath (script_dir X) "downloads")
                             name),
       mkWorld (run_process X (yt_dlp_command X youtube_url) (fs w)).2 rest,
       [ERun (yt_dlp_command X youtube_url) (Exited 0)])).
  { rewrite download_youtube_audio_run. cbv zeta. cbn [fs stdin].
    rewrite Hrun, decide_True by done.
    unfold downloaded_wavs. rewrite Hdir, Hls.
    rewrite filter_first; [reflexivity| |exact Hname].
    eapply Forall_impl; [exact Hl1|]. intros n Hn. by rewrite Hn. }
  assert (Heq : remote_mode X w
    = after_event (EPrompt url_prompt)
        (after_event (EPrompt remote_language_prompt)
           (after_event (ERun (yt_dlp_command X youtube_url) (Exited 0))
              (transcribe_file X
                 (PathOps.joinpath
                    (PathOps.joinpath (script_dir X) "downloads") name)
                 language_sign
                 (mkWorld (run_process X (yt_dlp_command X youtube_url)
                                       (fs w)).2 rest))))).
  { unfold remote_mode. do 2 run_input. cbn [fs].
    rewrite (bind_run_ret _ _ _ _ _ _ Hd). unfold after_event.
    by destruct (transcribe_file _ _ _ _) as [[r w'] t]. }
  split; [exact Heq|].
  intros r w' t cfg o. rewrite Heq. unfold after_event.
  destruct (transcribe_file _ _ _ _) as [[r2 w2] t2] eqn:Ht.
  intros [= <- <- <-] Hev.
  do 3 (apply elem_of_cons in Hev as [?|Hev]; [done|]).
  pose proof (transcribe_file_requests _ _ _ _ _ _ Ht) as Hall.
  rewrite Forall_forall in Hall. specialize (Hall _ Hev).
  destruct Hall as (key & -> & _). simpl. by rewrite parent_joinpath.
Qed.

(** ** Exit status 0 *)

(** X14.  A run of the script that returns normally (exit status 0) had no
    child process that failed or could not be started, and every exception
    the pipeline raised in it was an instance of [Exception].  Nothing more:
    a run in which files were skipped, or in which every transcription
    failed, also ends with status 0. *)
Theorem X14_normal_return (w w' : World) (t : list event) :
  script X w = (Ret tt, w', t) →
  process_exit (script X w).1.1 = ExitStatus 0
  ∧ (∀ cmd o, ERun cmd o ∈ t → o = Exited 0)
  ∧ (∀ cfg e, EFarrigh cfg (Some e) ∈ t → isinstance_Exception e = true).
Proof.
  intros Hrun.
  assert (Hclean : clean t)
    by (destruct (fatal_safe_script _ _ _ _ _ Hrun) as [?|[? _]]; done).
  assert (Hcalm : calm t).
  { destruct (aborting_script _ _ _ _ Hrun)
      as [?|(? & ? & ? & _ & _ & _ & ?)]; done. }
  unfold clean in Hclean. unfold calm in Hcalm.
  rewrite Forall_forall in Hclean, Hcalm.
  split; [by rewrite Hrun|]. split.
  - intros cmd [n|en] Hin.
    + specialize (Hclean _ Hin). simpl in Hclean.
      apply negb_false_iff, Z.eqb_eq in Hclean. by subst.
    + specialize (Hcalm _ Hin). discriminate.
  - intros cfg e Hin. specialize (Hcalm _ Hin). simpl in Hcalm.
    by destruct (isinstance_Exception e).
Qed.

(** ** The log *)

Lemma keeps_log_transcribe_file file_path language_sign :
  keeps_log (transcribe_file X file_path language_sign).
Proof.
  intros w r w' t. rewrite transcribe_file_run. cbv zeta.
  destruct (probe (fs w) file_path); cbn [negb];
    [|intros [= <- <- <-]; by repeat constructor].
  destruct (truthy _); cbn [negb];
    [|intros [= <- <- <-]; by repeat constructor].
  destruct (farrigh X _ (fs w)).1 as [e|];
    [destruct (isinstance_Exception e) eqn:He|]; intros [= <- <- <-].
  - do 2 (apply logged_quiet; [done..|]).
    apply logged_record; [simpl; by rewrite He|constructor].
  - do 2 (apply logged_quiet; [done..|]).
    apply logged_quiet; [done|simpl; by rewrite He|constructor].
  - by repeat constructor.
Qed.

Ltac log_cases :=
  cbv zeta;
  repeat match goal with
    | |- context [match ?x with _ => _ end] => destruct x
    end;
  intros [= <- <- <-]; subst;
  first
    [ by repeat constructor
    | apply logged_record; [|constructor];
      simpl; by rewrite (proj2 (Z.eqb_neq _ _)) ].

Lemma keeps_log_convert_mp3_to_wav mp3_path :
  keeps_log (convert_mp3_to_wav X mp3_path).
Proof. intros w r w' t. rewrite convert_mp3_to_wav_run. log_cases. Qed.

Lemma keeps_log_convert_video_to_audio video_path :
  keeps_log (convert_video_to_audio X video_path).
Proof. intros w r w' t. rewrite convert_video_to_audio_run. log_cases. Qed.

Lemma keeps_log_download_youtube_audio youtube_url :
  keeps_log (download_youtube_audio X youtube_url).
Proof. intros w r w' t. rewrite download_youtube_audio_run. log_cases. Qed.

Ltac log_compose :=
  repeat first
    [ apply keeps_log_transcribe_file
    | apply keeps_log_convert_mp3_to_wav
    | apply keeps_log_convert_video_to_audio
    | apply keeps_log_download_youtube_audio
    | apply keeps_log_input
    | apply keeps_log_emit; reflexivity
    | apply keeps_log_silent; intros ?; eexists; reflexivity
    | apply keeps_log_bind; [|intros ?]
    | match goal with
      | |- keeps_log (if ?b then _ else _) => destruct b
      end ].

Lemma keeps_log_script : keeps_log (script X).
Proof.
  unfold script, main, remote_mode, local_mode, local_directory,
    local_single_file, print, sys_exit.
  log_compose.
  apply keeps_log_for_each. intros file. unfold local_dir_entry.
  log_compose.
Qed.

(** X15.  The log holds exactly the failures of the run.  In every run of
    the script, a log record comes right after its cause (a child process
    that exited with a non-zero status, logged as that CalledProcessError,
    or a pipeline exception that is an instance of [Exception]) and right
    before a message to the user; and each such cause is followed at once by
    its log record and a message.  Skipped files, missing credentials, an
    invalid mode answer and missing startup credentials are reported to the
    user but never logged. *)
Theorem X15_log_discipline (w w' : World) (r : result unit) (t : list event)
    (pre post : list event) (ev : event) :
  script X w = (r, w', t) →
  t = pre ++ ev :: post →
  (∀ prefix e, ev = ELogError prefix e →
     ∃ pre' cause message post',
       pre = pre' ++ [cause]
       ∧ post = EPrint message :: post'
       ∧ ((∃ cmd n, cause = ERun cmd (Exited n) ∧ n ≠ 0
                    ∧ e = CalledProcessError cmd n)
          ∨ (∃ cfg, cause = EFarrigh cfg (Some e)
                    ∧ isinstance_Exception e = true)))
  ∧ (∀ cmd n, ev = ERun cmd (Exited n) → n ≠ 0 →
       ∃ prefix message post',
         post = ELogError prefix (CalledProcessError cmd n)
                :: EPrint message :: post')
  ∧ (∀ cfg e, ev = EFarrigh cfg (Some e) → isinstance_Exception e = true →
       ∃ prefix message post',
         post = ELogError prefix e :: EPrint message :: post').
Proof.
  intros Hrun Ht.
  destruct (logged_inv _ (keeps_log_script _ _ _ _ Hrun) _ _ _ Ht) as [Ha Hb].
  split; [|split].
  - intros px e Hev.
    destruct (Ha _ _ Hev) as (pre' & c & msg & post' & Hpre & Hc & Hpost).
    exists pre', c, msg, post'. split; [exact Hpre|]. split; [exact Hpost|].
    destruct c as [| | |cmd [n|en]| |cfg [e0|]]; try discriminate Hc.
    + left. simpl in Hc. destruct (Z.eqb_spec n 0); [discriminate|].
      injection Hc as <-. by exists cmd, n.
    + right. simpl in Hc. destruct (isinstance_Exception e0) eqn:He0;
        [|discriminate]. injection Hc as <-. by exists cfg.
  - intros cmd n -> Hn. apply Hb. simpl.
    by rewrite (proj2 (Z.eqb_neq _ _) Hn).
  - intros cfg e -> He. apply Hb. simpl. by rewrite He.
Qed.

End Extras.

(** * The properties at concrete worlds *)

Example of_string_abs :
  PathOps.of_string "/tmp//a/./talk.MP3" = mkPath true ["tmp"; "a"; "talk.MP3"].
Proof. reflexivity. Qed.

Example suffix_hidden : PathOps.suffix (PathOps.of_string ".bashrc") = "".
Proof. reflexivity. Qed.

Example suffix_double :
  PathOps.suffix (PathOps.of_string "d/a.tar.WAV") = ".WAV".
Proof. reflexivity. Qed.

Example with_suffix_mp3 :
  PathOps.with_suffix (PathOps.of_string "d/a.b.mp3") ".wav"
  = Some (mkPath false ["d"; "a.b.wav"]).
Proof. reflexivity. Qed.

Example str_parent :
  PathOps.str (PathOps.parent (PathOps.of_string "/x/y/z.wav")) = "/x/y".
Proof. reflexivity. Qed.

Example strip_upper_choice : Str.upper (Str.strip "  l ") = "L".
Proof. reflexivity. Qed.

Import Scenario.

(** A pipeline exception that is not an instance of [Exception] is not
    caught by [transcribe_file]. *)
Example keyboard_interrupt_propagates :
  (transcribe_file
     (mkExternals ffmpeg_ok (λ _ f, (Some KeyboardInterrupt, f)) app_dir
                  env_english)
     a_wav "en" w_media).1.1
  = Raise KeyboardInterrupt.
Proof. vm_compute. reflexivity. Qed.

(** The directory listing is read once: the WAV files that the conversions
    add to /media are not visited by the loop. *)
Example directory_run_dispatches :
  actions (local_mode X_ok w_directory).2
  = [ADispatch a_wav;
     AConvert ["ffmpeg"; "-i"; "/media/b.mp3"; "/media/b.wav"];
     ADispatch (PathOps.joinpath media "b.wav");
     AConvert ["ffmpeg"; "-i"; "/media/c.mkv"; "-vn"; "-acodec"; "pcm_s16le";
               "-ar"; "44100"; "-ac"; "2"; "/media/c.wav"];
     ADispatch (PathOps.joinpath media "c.wav")].
Proof. vm_compute. reflexivity. Qed.

Lemma C1_witness :
  is_wav_file a_wav w_media = (Ret true, w_media, [])
  ∧ (farrigh X_pipeline_raises (make_config a_wav "en" "tok-en")
             (fs w_media)).1
    = Some (OtherException "RuntimeError" "wit.ai request failed")
  ∧ ∃ w',
      transcribe_file X_pipeline_raises a_wav "en" w_media
      = (Ret tt, w',
         [EDispatch a_wav "en";
          EPrint (transcribing_message a_wav);
          EFarrigh (make_config a_wav "en" "tok-en")
                   (Some (OtherException "RuntimeError" "wit.ai request failed"));
          ELogError "Error during transcription: "
                    (OtherException "RuntimeError" "wit.ai request failed");
          EPrint failed_message]).
Proof.
  assert (H1 : is_wav_file a_wav w_media = (Ret true, w_media, []))
    by (vm_compute; reflexivity).
  split; [exact H1|]. split; [reflexivity|].
  destruct (C1_pipeline_exception_is_isolated X_pipeline_raises a_wav "en"
              "tok-en" (OtherException "RuntimeError" "wit.ai request failed")
              w_media H1)
    as [(w' & Hrun & _) _].
  - vm_compute. reflexivity.
  - discriminate.
  - reflexivity.
  - reflexivity.
  - exists w'. exact Hrun.
Defined.

Lemma script_run_eta (X : Externals) (w : World) :
  script X w = ((script X w).1.1, (script X w).1.2, (script X w).2).
Proof. by destruct (script X w) as [[r w'] t]. Defined.

Lemma C2_witness :
  ERun ["ffmpeg"; "-i"; "/media/b.mp3"; "/media/b.wav"] (Exited 1)
    ∈ (script X_tool_fails w_single_mp3).2
  ∧ (script X_tool_fails w_single_mp3).1.1 = Raise (SystemExit 1)
  ∧ process_exit (script X_tool_fails w_single_mp3).1.1 = ExitStatus 1.
Proof.
  assert (Hin : ERun ["ffmpeg"; "-i"; "/media/b.mp3"; "/media/b.wav"] (Exited 1)
                ∈ (script X_tool_fails w_single_mp3).2).
  { vm_compute. right. right. left. }
  split; [exact Hin|].
  destruct (C2_tool_failure_is_fatal X_tool_fails w_single_mp3 _ _ _ _ 1
              (script_run_eta _ _) Hin)
    as (Hr & Hexit & _).
  - discriminate.
  - split; [exact Hr | exact Hexit].
Defined.

Lemma C3_witness :
  (∀ code var, (code, var) ∈ recognized →
               truthy (getenv X_no_credentials var) = false)
  ∧ ∃ r t,
      script X_no_credentials w_single_mp3 = (r, w_single_mp3, t)
      ∧ process_exit r = ExitStatus 1
      ∧ t = [EPrint missing_keys_message]
      ∧ filter (λ ev, is_prompt ev) t = [].
Proof.
  assert (H : ∀ code var, (code, var) ∈ recognized →
                          truthy (getenv X_no_credentials var) = false).
  { intros code var Hin. unfold recognized in Hin.
    rewrite !elem_of_cons, elem_of_nil in Hin.
    destruct Hin as [Hin|[Hin|[Hin|[Hin|[]]]]];
      injection Hin as -> ->; vm_compute; reflexivity. }
  split; [exact H|].
  exact (C3_no_credentials_exit_before_prompt X_no_credentials w_single_mp3 H).
Defined.

Lemma C4_witness :
  is_wav_file b_mp3 w_media = (Ret false, w_media, [])
  ∧ ∃ t,
      transcribe_file X_ok b_mp3 "en" w_media = (Ret tt, w_media, t)
      ∧ t = [EDispatch b_mp3 "en"; EPrint (skip_message b_mp3)]
      ∧ filter (λ ev, is_farrigh ev || is_run ev || is_log ev) t = [].
Proof.
  assert (H : is_wav_file b_mp3 w_media = (Ret false, w_media, []))
    by (vm_compute; reflexivity).
  split; [exact H|].
  exact (C4_non_wav_short_circuits X_ok b_mp3 "en" w_media H).
Defined.




Lemma C8_witness :
  is_wav_file a_wav w_media = (Ret true, w_media, [])
  ∧ dict_get (LANGUAGE_API_KEYS X_ok) (Str.upper "en") = Some "tok-en"
  ∧ ∃ cfg,
      EFarrigh cfg None ∈ (transcribe_file X_ok a_wav "en" w_media).2
      ∧ Config.urls_or_paths (Config.input cfg) = ["/media/a.wav"]
      ∧ Config.wit_client_access_tokens (Config.wit cfg) = ["tok-en"]
      ∧ Config.output_dir (Config.output cfg) = "/media".
Proof.
  assert (H1 : is_wav_file a_wav w_media = (Ret true, w_media, []))
    by (vm_compute; reflexivity).
  assert (H2 : dict_get (LANGUAGE_API_KEYS X_ok) (Str.upper "en")
               = Some "tok-en") by (vm_compute; reflexivity).
  split; [exact H1|]. split; [exact H2|].
  destruct (C8_configuration_bundle X_ok a_wav "en" "tok-en" w_media H1 H2)
    as (cfg & r & w' & t & Hrun & _ & Hin & _ & _ & _ & Htok & _ & _ & _ & Hout).
  - discriminate.
  - exists cfg. rewrite Hrun, Hin, Htok, Hout.
    split; [|by repeat split].
    right. right. left.
Defined.

Lemma C9_witness :
  (run_process X_download_idle
     (yt_dlp_command X_download_idle "https://youtu.be/abc") (fs w_remote)).1
  = Exited 0
  ∧ ∃ w1 t,
      remote_mode X_download_idle w_remote = (Raise StopIteration, w1, t)
      ∧ process_exit (Raise StopIteration) = Traceback StopIteration
      ∧ filter (λ ev, is_log ev || is_print ev) t = [].
Proof.
  split; [reflexivity|].
  destruct (C9_download_without_wav_raises X_download_idle
              "https://youtu.be/abc" "en" [] w_remote)
    as (w1 & t & _ & Hrun & _ & _ & Hexit & Hquiet).
  - reflexivity.
  - reflexivity.
  - constructor.
  - exists w1, t. by repeat split.
Defined.



(** * The further properties at concrete worlds *)



Lemma X3_witness :
  ERun ["ffmpeg"; "-i"; "/media/b.mp3"; "/media/b.wav"] (NotStarted ENOENT)
    ∈ (script X_not_installed w_single_mp3).2
  ∧ (script X_not_installed w_single_mp3).1.1 = Raise (OSError ENOENT)
  ∧ process_exit (script X_not_installed w_single_mp3).1.1
    = Traceback (OSError ENOENT).
Proof.
  assert (Hin : ERun ["ffmpeg"; "-i"; "/media/b.mp3"; "/media/b.wav"]
                     (NotStarted ENOENT)
                ∈ (script X_not_installed w_single_mp3).2).
  { vm_compute. right. right. left. }
  split; [exact Hin|].
  destruct (X3_tool_not_started_is_uncaught X_not_installed w_single_mp3
              _ _ _ _ _ (script_run_eta _ _) Hin) as (Hr & Hexit & _).
  split; [exact Hr | exact Hexit].
Defined.

Lemma X4_witness :
  convert_mp3_to_wav X_ok b_mp3 w_media
  = (Ret (PathOps.joinpath media "b.wav"),
     (convert_mp3_to_wav X_ok b_mp3 w_media).1.2,
     (convert_mp3_to_wav X_ok b_mp3 w_media).2)
  ∧ PathOps.parent (PathOps.joinpath media "b.wav") = PathOps.parent b_mp3
  ∧ PathOps.suffix (PathOps.joinpath media "b.wav") = ".wav".
Proof.
  assert (H : convert_mp3_to_wav X_ok b_mp3 w_media
              = (Ret (PathOps.joinpath media "b.wav"),
                 (convert_mp3_to_wav X_ok b_mp3 w_media).1.2,
                 (convert_mp3_to_wav X_ok b_mp3 w_media).2))
    by (vm_compute; reflexivity).
  split; [exact H|].
  destruct (X4_conversion_returns_wav_sibling X_ok b_mp3 _ w_media _ _
              (or_introl H)) as (_ & Hpar & Hsfx & _).
  split; [exact Hpar | exact Hsfx].
Defined.

Lemma X5_witness :
  EFarrigh (make_config a_wav "en" "tok-en") (Some KeyboardInterrupt)
    ∈ (script X_interrupted w_session_directory).2
  ∧ (script X_interrupted w_session_directory).1.1 = Raise KeyboardInterrupt
  ∧ ∃ pre, (script X_interrupted w_session_directory).2
           = pre ++ [EFarrigh (make_config a_wav "en" "tok-en")
                              (Some KeyboardInterrupt)].
Proof.
  assert (Hin : EFarrigh (make_config a_wav "en" "tok-en")
                         (Some KeyboardInterrupt)
                ∈ (script X_interrupted w_session_directory).2).
  { vm_compute. do 5 right. left. }
  split; [exact Hin|].
  destruct (X5_pipeline_base_exception_ends_run X_interrupted
              w_session_directory _ _ _ _ _ (script_run_eta _ _) Hin eq_refl)
    as (Hr & Hlast & _).
  split; [exact Hr | exact Hlast].
Defined.


Lemma X7_witness :
  EFarrigh (make_config a_wav "en" "tok-en") None
    ∈ (script X_ok w_single_wav).2
  ∧ credentialed X_ok (make_config a_wav "en" "tok-en").
Proof.
  assert (Hin : EFarrigh (make_config a_wav "en" "tok-en") None
                ∈ (script X_ok w_single_wav).2).
  { vm_compute. do 5 right. left. }
  split; [exact Hin|].
  exact (proj1 (X7_every_request_is_credentialed X_ok w_single_wav _ _ _ _ _
                  (script_run_eta _ _) Hin)).
Defined.

Lemma local_directory_run_eta (X : Externals) (d : Path) (w : World) :
  local_directory X d w
  = ((local_directory X d w).1.1, (local_directory X d w).1.2,
     (local_directory X d w).2).
Proof. by destruct (local_directory X d w) as [[r w'] t]. Defined.

Lemma X8_witness :
  EFarrigh (make_config (PathOps.joinpath media "b.wav") "EN" "tok-en") None
    ∈ (local_directory X_ok media w_languages).2
  ∧ ∃ q,
      Config.urls_or_paths
        (Config.input (make_config (PathOps.joinpath media "b.wav") "EN"
                                   "tok-en"))
      = [PathOps.str q]
      ∧ PathOps.parent q = media
      ∧ suffix_lower q = ".wav"
      ∧ Config.output_dir
          (Config.output (make_config (PathOps.joinpath media "b.wav") "EN"
                                      "tok-en"))
        = PathOps.str media.
Proof.
  assert (Hin : EFarrigh (make_config (PathOps.joinpath media "b.wav") "EN"
                                      "tok-en") None
                ∈ (local_directory X_ok media w_languages).2).
  { vm_compute. do 10 right. left. }
  split; [exact Hin|].
  exact (X8_directory_requests_stay_in_directory X_ok media w_languages
           _ _ _ _ _ (local_directory_run_eta _ _ _) Hin).
Defined.



Lemma X10_witness :
  script X_ok w_single_mp3 = main X_ok w_single_mp3
  ∧ script X_no_credentials w_single_mp3 ≠ main X_no_credentials w_single_mp3.
Proof.
  split.
  - apply (X10_startup_check X_ok w_single_mp3).
    exists "EN", "WIT_API_KEY_ENGLISH". split; [left|reflexivity].
  - intros Heq.
    apply (X10_startup_check X_no_credentials w_single_mp3) in Heq
      as (code & var & Hin & Ht).
    unfold recognized in Hin. rewrite !elem_of_cons, elem_of_nil in Hin.
    destruct Hin as [Hin|[Hin|[Hin|[Hin|[]]]]];
      injection Hin as -> ->; discriminate Ht.
Defined.




Lemma X13_witness :
  fs_scandir (run_process X_download_ok
                (yt_dlp_command X_download_ok "https://youtu.be/abc")
                (fs w_remote_again)).2
             (PathOps.joinpath (script_dir X_download_ok) "downloads")
  = ["notes.txt"] ++ "old.wav" :: ["new.wav"]
  ∧ remote_mode X_download_ok w_remote_again
    = after_event (EPrompt url_prompt)
        (after_event (EPrompt remote_language_prompt)
           (after_event
              (ERun (yt_dlp_command X_download_ok "https://youtu.be/abc")
                    (Exited 0))
              (transcribe_file X_download_ok
                 (PathOps.joinpath downloads "old.wav") "en"
                 (mkWorld (run_process X_download_ok
                             (yt_dlp_command X_download_ok
                                             "https://youtu.be/abc")
                             (fs w_remote_again)).2 [])))).
Proof.
  assert (Hls : fs_scandir
                  (run_process X_download_ok
                     (yt_dlp_command X_download_ok "https://youtu.be/abc")
                     (fs w_remote_again)).2
                  (PathOps.joinpath (script_dir X_download_ok) "downloads")
                = ["notes.txt"] ++ "old.wav" :: ["new.wav"])
    by (vm_compute; reflexivity).
  split; [exact Hls|].
  apply (X13_remote_mode_takes_first_wav X_download_ok "https://youtu.be/abc"
           "en" [] ["notes.txt"] ["new.wav"] "old.wav" w_remote_again).
  - reflexivity.
  - reflexivity.
  - vm_compute. reflexivity.
  - exact Hls.
  - repeat constructor.
  - reflexivity.
Defined.

Lemma X14_witness :
  script X_pipeline_raises w_single_wav
  = (Ret tt, (script X_pipeline_raises w_single_wav).1.2,
     (script X_pipeline_raises w_single_wav).2)
  ∧ process_exit (script X_pipeline_raises w_single_wav).1.1 = ExitStatus 0
  ∧ filter (λ ev, is_log ev) (script X_pipeline_raises w_single_wav).2
    = [ELogError "Error during transcription: "
                 (OtherException "RuntimeError" "wit.ai request failed")].
Proof.
  assert (H : script X_pipeline_raises w_single_wav
              = (Ret tt, (script X_pipeline_raises w_single_wav).1.2,
                 (script X_pipeline_raises w_single_wav).2))
    by (vm_compute; reflexivity).
  split; [exact H|].
  split; [exact (proj1 (X14_normal_return X_pipeline_raises w_single_wav
                          _ _ H))|].
  vm_compute. reflexivity.
Defined.

Lemma X15_witness :
  ∃ pre post prefix message,
    (script X_tool_fails w_single_mp3).2
    = pre ++ ERun ["ffmpeg"; "-i"; "/media/b.mp3"; "/media/b.wav"] (Exited 1)
          :: post
    ∧ post
      = [ELogError prefix
           (CalledProcessError
              ["ffmpeg"; "-i"; "/media/b.mp3"; "/media/b.wav"] 1);
         EPrint message].
Proof.
  assert (Ht : (script X_tool_fails w_single_mp3).2
    = [EPrompt mode_prompt; EPrompt path_prompt]
      ++ ERun ["ffmpeg"; "-i"; "/media/b.mp3"; "/media/b.wav"] (Exited 1)
      :: [ELogError "Error converting MP3 to WAV: "
            (CalledProcessError
               ["ffmpeg"; "-i"; "/media/b.mp3"; "/media/b.wav"] 1);
          EPrint mp3_error_message])
    by (vm_compute; reflexivity).
  destruct (X15_log_discipline X_tool_fails w_single_mp3 _ _ _ _ _ _
              (script_run_eta _ _) Ht) as (_ & Hrun & _).
  destruct (Hrun _ 1 eq_refl) as (px & msg & post' & Hpost); [discriminate|].
  exists [EPrompt mode_prompt; EPrompt path_prompt],
    [ELogError "Error converting MP3 to WAV: "
       (CalledProcessError ["ffmpeg"; "-i"; "/media/b.mp3"; "/media/b.wav"] 1);
     EPrint mp3_error_message], px, msg.
  split; [exact Ht|]. injection Hpost as <- <- <-. reflexivity.
Defined.
